(** * AI Protein Tracker: the analysis route and the tracker page

    A shallow embedding of the two source files that carry the logic of the
    application:

    - [src/app/api/analyze/route.ts], the [POST] handler that relays a meal
      photo to the vision model and parses the reply (module [Route]);
    - the page component [Home] with its state, effects and handlers
      (module [Page]), and what it does with a reply whose fields are not
      of the declared types (modules [JsValue] and [Payload]).

    JavaScript values are modelled as the language defines them: numbers are
    IEEE 754 binary64 values (Rocq's primitive [float]), strings are
    sequences of UTF-16 code units, [JSON.parse] and [String.prototype.match]
    are written out as total functions. *)

From Stdlib Require Import ZArith List Bool String Ascii Lia Floats.
Import ListNotations.

#[local] Set Warnings "-inexact-float,-register-all".
#[local] Open Scope Z_scope.

(* ================================================================== *)
(** * Part I: the embedding *)
(* ================================================================== *)

(** ** JavaScript numbers *)

Module JsNumber.

(** The Number value of a mathematical integer (round to nearest, ties to
    even; exact below 2^53). *)
Definition of_Z (z : Z) : float :=
  SF2Prim (binary_normalize prec emax z 0 false).

(** [Math.round(x)]: NaN, the infinities, the zeros and integral values are
    returned as they are; otherwise the integral Number closest to [x], the
    one closer to +Infinity on a tie. Values in [-0.5, 0) give [-0]. *)
Definition Math_round (x : float) : float :=
  match Prim2SF x with
  | S754_finite s m e =>
      if 0 <=? e then x
      else
        let n := if s then Zneg m else Zpos m in
        let r := Z.shiftr (2 * n + 2 ^ (- e)) (1 - e) in
        if r =? 0 then (if s then neg_zero else zero) else of_Z r
  | _ => x
  end.

(** [Math.min(x, y)]: NaN when either is NaN; [-0] is below [+0]. *)
Definition Math_min (x y : float) : float :=
  if is_nan x || is_nan y then nan
  else if (x <? y)%float then x
  else if (y <? x)%float then y
  else if get_sign x then x else y.

(** [Math.max(x, y)]: NaN when either is NaN; [+0] is above [-0]. *)
Definition Math_max (x y : float) : float :=
  if is_nan x || is_nan y then nan
  else if (x <? y)%float then y
  else if (y <? x)%float then x
  else if get_sign x then y else x.

Definition spec_float_eqb (a b : spec_float) : bool :=
  match a, b with
  | S754_zero s, S754_zero t => Bool.eqb s t
  | S754_infinity s, S754_infinity t => Bool.eqb s t
  | S754_nan, S754_nan => true
  | S754_finite s m e, S754_finite t n f =>
      Bool.eqb s t && Pos.eqb m n && Z.eqb e f
  | _, _ => false
  end.

(** [Object.is] on numbers (the comparison React applies to a state value
    and to effect dependencies): NaN is NaN, [+0] is not [-0]. *)
Definition Object_is (x y : float) : bool :=
  spec_float_eqb (Prim2SF x) (Prim2SF y).

(** ToBoolean on a number: false for [+0], [-0] and NaN. *)
Definition truthy (x : float) : bool :=
  negb (is_nan x || is_zero x).

(** The Number value of the decimal [(-1)^neg * mant * 10^e10], as the
    numeric literals of JSON denote it: the nearest binary64 value, ties to
    even, overflowing to an infinity. *)
Definition of_decimal (neg : bool) (mant e10 : Z) : float :=
  if mant <=? 0 then (if neg then neg_zero else zero)
  else if 0 <=? e10 then
    SF2Prim (binary_normalize prec emax
               ((if neg then Z.opp mant else mant) * 10 ^ e10) 0 false)
  else
    let '(q, e, l) := SFdiv_core_binary prec emax mant 0 (10 ^ (- e10)) 0 in
    SF2Prim (binary_round_aux prec emax neg q e l).

End JsNumber.

(** ** JavaScript strings *)

Module JsString.

(** A string is its sequence of UTF-16 code units. *)
Definition jsstring := list N.

Definition code (a : ascii) : N := N_of_ascii a.

(** An ASCII literal as a JavaScript string. *)
Definition js (s : string) : jsstring :=
  map code (list_ascii_of_string s).

(** The same, with every apostrophe of the literal standing for a
    quotation mark (code unit 34): JSON texts are written this way below. *)
Definition jsq (s : string) : jsstring :=
  map (fun a => if N.eqb (code a) 39 then 34%N else code a)
      (list_ascii_of_string s).

Fixpoint eqb (a b : jsstring) : bool :=
  match a, b with
  | [], [] => true
  | x :: a', y :: b' => N.eqb x y && eqb a' b'
  | _, _ => false
  end.

Fixpoint startsWith (s p : jsstring) : bool :=
  match p, s with
  | [], _ => true
  | y :: p', x :: s' => N.eqb x y && startsWith s' p'
  | _ :: _, [] => false
  end.

(** [s.includes(p)] *)
Fixpoint includes (s p : jsstring) : bool :=
  startsWith s p ||
  match s with
  | [] => false
  | _ :: s' => includes s' p
  end.

Definition toLowerCase_unit (c : N) : N :=
  if (65 <=? c)%N && (c <=? 90)%N then (c + 32)%N else c.

(** [toLowerCase] on the ASCII letters (all that the texts below contain). *)
Definition toLowerCase (s : jsstring) : jsstring := map toLowerCase_unit s.

(** A message mentions a word when it contains it, whatever the case. *)
Definition mentions (message word : jsstring) : bool :=
  includes (toLowerCase message) (toLowerCase word).

End JsString.

Export JsString.

(** ** JSON values and [JSON.parse] *)

Module JSON.

Inductive value :=
| JNull
| JBool (b : bool)
| JNumber (x : float)
| JString (s : jsstring)
| JArray (elements : list value)
| JObject (members : list (jsstring * value)).

(** Own properties of an object, in insertion order. *)
Fixpoint get (members : list (jsstring * value)) (key : jsstring)
  : option value :=
  match members with
  | [] => None
  | (k, v) :: rest => if JsString.eqb k key then Some v else get rest key
  end.

(** Defining a property: a key already present keeps its place and takes
    the new value, a new key is added last. *)
Fixpoint set (members : list (jsstring * value)) (key : jsstring) (v : value)
  : list (jsstring * value) :=
  match members with
  | [] => [(key, v)]
  | (k, w) :: rest =>
      if JsString.eqb k key then (k, v) :: rest
      else (k, w) :: set rest key v
  end.

(** *** Tokens

    The lexer is a machine that reads one code unit at a time. *)

Inductive token :=
| TLBrace | TRBrace | TLBracket | TRBracket | TColon | TComma
| TString (s : jsstring)
| TNumber (x : float)
| TTrue | TFalse | TNull.

(** Where the machine stands inside a number: an optional minus sign; an
    integer part, [0] or a nonzero digit followed by digits; an optional
    fraction, a point and one digit or more; an optional exponent, [e] or
    [E], an optional sign and one digit or more. *)
Inductive num_phase :=
| NMinus | NZero | NInt | NDot | NFrac | NE | NESign | NExp.

Record num_acc := {
  n_neg : bool;      (* a leading minus sign *)
  n_mant : Z;        (* the digits of the integer and fraction parts *)
  n_scale : Z;       (* how many of them follow the point *)
  n_eneg : bool;     (* a minus sign in the exponent *)
  n_exp : Z;         (* the digits of the exponent *)
  n_phase : num_phase
}.

Definition digit (c : N) : option Z :=
  if (48 <=? c)%N && (c <=? 57)%N then Some (Z.of_N c - 48) else None.

Definition hex_digit (c : N) : option N :=
  if (48 <=? c)%N && (c <=? 57)%N then Some (c - 48)%N
  else if (65 <=? c)%N && (c <=? 70)%N then Some (c - 55)%N
  else if (97 <=? c)%N && (c <=? 102)%N then Some (c - 87)%N
  else None.

Definition num_step (a : num_acc) (c : N) : option num_acc :=
  let at_phase p := Some {| n_neg := n_neg a; n_mant := n_mant a;
                            n_scale := n_scale a; n_eneg := n_eneg a;
                            n_exp := n_exp a; n_phase := p |} in
  let int_digit d := Some {| n_neg := n_neg a; n_mant := 10 * n_mant a + d;
                             n_scale := n_scale a; n_eneg := n_eneg a;
                             n_exp := n_exp a; n_phase := NInt |} in
  let frac_digit d := Some {| n_neg := n_neg a; n_mant := 10 * n_mant a + d;
                              n_scale := n_scale a + 1; n_eneg := n_eneg a;
                              n_exp := n_exp a; n_phase := NFrac |} in
  let exp_digit d := Some {| n_neg := n_neg a; n_mant := n_mant a;
                             n_scale := n_scale a; n_eneg := n_eneg a;
                             n_exp := 10 * n_exp a + d; n_phase := NExp |} in
  let exp_sign b := Some {| n_neg := n_neg a; n_mant := n_mant a;
                            n_scale := n_scale a; n_eneg := b;
                            n_exp := n_exp a; n_phase := NESign |} in
  let is_dot := N.eqb c 46 in
  let is_e := N.eqb c 101 || N.eqb c 69 in
  match n_phase a, digit c with
  | NMinus, Some d => if d =? 0 then at_phase NZero else int_digit d
  | NMinus, None => None
  | NZero, Some _ => None
  | NZero, None =>
      if is_dot then at_phase NDot else if is_e then at_phase NE else None
  | NInt, Some d => int_digit d
  | NInt, None =>
      if is_dot then at_phase NDot else if is_e then at_phase NE else None
  | NDot, Some d => frac_digit d
  | NDot, None => None
  | NFrac, Some d => frac_digit d
  | NFrac, None => if is_e then at_phase NE else None
  | NE, Some d => exp_digit d
  | NE, None =>
      if N.eqb c 43 then exp_sign false
      else if N.eqb c 45 then exp_sign true else None
  | NESign, Some d => exp_digit d
  | NESign, None => None
  | NExp, Some d => exp_digit d
  | NExp, None => None
  end.

Definition num_complete (a : num_acc) : bool :=
  match n_phase a with
  | NZero | NInt | NFrac | NExp => true
  | _ => false
  end.

Definition num_value (a : num_acc) : float :=
  JsNumber.of_decimal (n_neg a) (n_mant a)
    ((if n_eneg a then - n_exp a else n_exp a) - n_scale a).

Inductive lex_mode :=
| LStart
| LString (acc : jsstring)                       (* reversed *)
| LEscape (acc : jsstring)                       (* after a backslash *)
| LUnicode (acc : jsstring) (n : nat) (cu : N)   (* n hex digits of \u read *)
| LNumber (a : num_acc)
| LLiteral (acc : jsstring).                     (* reversed *)

Definition literal_token (word : jsstring) : option token :=
  if JsString.eqb word (js "true") then Some TTrue
  else if JsString.eqb word (js "false") then Some TFalse
  else if JsString.eqb word (js "null") then Some TNull
  else None.

Definition is_whitespace (c : N) : bool :=
  N.eqb c 9 || N.eqb c 10 || N.eqb c 13 || N.eqb c 32.

Definition is_lower (c : N) : bool := (97 <=? c)%N && (c <=? 122)%N.

Definition lex_state := (lex_mode * list token)%type.   (* tokens reversed *)

(** A code unit read between tokens. *)
Definition lex_start (toks : list token) (c : N) : option lex_state :=
  let number neg mant phase :=
    Some (LNumber {| n_neg := neg; n_mant := mant; n_scale := 0;
                     n_eneg := false; n_exp := 0; n_phase := phase |}, toks) in
  if is_whitespace c then Some (LStart, toks)
  else if N.eqb c 123 then Some (LStart, TLBrace :: toks)
  else if N.eqb c 125 then Some (LStart, TRBrace :: toks)
  else if N.eqb c 91 then Some (LStart, TLBracket :: toks)
  else if N.eqb c 93 then Some (LStart, TRBracket :: toks)
  else if N.eqb c 58 then Some (LStart, TColon :: toks)
  else if N.eqb c 44 then Some (LStart, TComma :: toks)
  else if N.eqb c 34 then Some (LString [], toks)
  else if N.eqb c 45 then number true 0 NMinus
  else if is_lower c then Some (LLiteral [c], toks)
  else match digit c with
       | Some d => if d =? 0 then number false 0 NZero else number false d NInt
       | None => None
       end.

Definition lex_step (st : lex_state) (c : N) : option lex_state :=
  let '(mode, toks) := st in
  match mode with
  | LStart => lex_start toks c
  | LString acc =>
      if N.eqb c 34 then Some (LStart, TString (rev acc) :: toks)
      else if N.eqb c 92 then Some (LEscape acc, toks)
      else if (c <? 32)%N then None
      else Some (LString (c :: acc), toks)
  | LEscape acc =>
      if N.eqb c 34 || N.eqb c 92 || N.eqb c 47 then Some (LString (c :: acc), toks)
      else if N.eqb c 98 then Some (LString (8%N :: acc), toks)
      else if N.eqb c 102 then Some (LString (12%N :: acc), toks)
      else if N.eqb c 110 then Some (LString (10%N :: acc), toks)
      else if N.eqb c 114 then Some (LString (13%N :: acc), toks)
      else if N.eqb c 116 then Some (LString (9%N :: acc), toks)
      else if N.eqb c 117 then Some (LUnicode acc 0 0%N, toks)
      else None
  | LUnicode acc n cu =>
      match hex_digit c with
      | Some h =>
          let cu' := (16 * cu + h)%N in
          if Nat.eqb n 3 then Some (LString (cu' :: acc), toks)
          else Some (LUnicode acc (S n) cu', toks)
      | None => None
      end
  | LNumber a =>
      match num_step a c with
      | Some a' => Some (LNumber a', toks)
      | None =>
          if num_complete a then lex_start (TNumber (num_value a) :: toks) c
          else None
      end
  | LLiteral acc =>
      if is_lower c then Some (LLiteral (c :: acc), toks)
      else match literal_token (rev acc) with
           | Some t => lex_start (t :: toks) c
           | None => None
           end
  end.

Fixpoint lex_run (st : lex_state) (text : jsstring) : option lex_state :=
  match text with
  | [] => Some st
  | c :: rest =>
      match lex_step st c with
      | Some st' => lex_run st' rest
      | None => None
      end
  end.

Definition lex_finish (st : lex_state) : option (list token) :=
  let '(mode, toks) := st in
  match mode with
  | LStart => Some (rev toks)
  | LNumber a =>
      if num_complete a then Some (rev (TNumber (num_value a) :: toks))
      else None
  | LLiteral acc =>
      match literal_token (rev acc) with
      | Some t => Some (rev (t :: toks))
      | None => None
      end
  | _ => None
  end.

Definition lex (text : jsstring) : option (list token) :=
  match lex_run (LStart, []) text with
  | Some st => lex_finish st
  | None => None
  end.

(** *** The grammar, as a machine over tokens with a stack of the arrays
    and objects that are still open *)

Inductive frame :=
| FArray (elements : list value)                        (* reversed *)
| FObject (members : list (jsstring * value)) (key : jsstring).

Inductive parse_state :=
| SValue (stack : list frame)         (* a value must follow *)
| SArrayOpen (stack : list frame)     (* after [[]: a value or []] *)
| SObjectOpen (stack : list frame)    (* after [{]: a key or [}] *)
| SKey (members : list (jsstring * value)) (stack : list frame)
| SColon (members : list (jsstring * value)) (key : jsstring)
         (stack : list frame)
| SAfter (v : value) (stack : list frame).   (* a value is complete *)

Definition value_start (t : token) (stack : list frame)
  : option parse_state :=
  match t with
  | TString s => Some (SAfter (JString s) stack)
  | TNumber x => Some (SAfter (JNumber x) stack)
  | TTrue => Some (SAfter (JBool true) stack)
  | TFalse => Some (SAfter (JBool false) stack)
  | TNull => Some (SAfter JNull stack)
  | TLBracket => Some (SArrayOpen stack)
  | TLBrace => Some (SObjectOpen stack)
  | _ => None
  end.

Definition parse_step (st : parse_state) (t : token) : option parse_state :=
  match st with
  | SValue stack => value_start t stack
  | SArrayOpen stack =>
      match t with
      | TRBracket => Some (SAfter (JArray []) stack)
      | _ => value_start t (FArray [] :: stack)
      end
  | SObjectOpen stack =>
      match t with
      | TRBrace => Some (SAfter (JObject []) stack)
      | TString k => Some (SColon [] k stack)
      | _ => None
      end
  | SKey members stack =>
      match t with
      | TString k => Some (SColon members k stack)
      | _ => None
      end
  | SColon members k stack =>
      match t with
      | TColon => Some (SValue (FObject members k :: stack))
      | _ => None
      end
  | SAfter v [] => None
  | SAfter v (FArray elements :: stack) =>
      match t with
      | TComma => Some (SValue (FArray (v :: elements) :: stack))
      | TRBracket => Some (SAfter (JArray (rev (v :: elements))) stack)
      | _ => None
      end
  | SAfter v (FObject members k :: stack) =>
      match t with
      | TComma => Some (SKey (set members k v) stack)
      | TRBrace => Some (SAfter (JObject (set members k v)) stack)
      | _ => None
      end
  end.

Fixpoint parse_run (st : parse_state) (toks : list token)
  : option parse_state :=
  match toks with
  | [] => Some st
  | t :: rest =>
      match parse_step st t with
      | Some st' => parse_run st' rest
      | None => None
      end
  end.

(** [JSON.parse(text)]: [None] stands for the SyntaxError it throws. *)
Definition parse (text : jsstring) : option value :=
  match lex text with
  | None => None
  | Some toks =>
      match parse_run (SValue []) toks with
      | Some (SAfter v []) => Some v
      | _ => None
      end
  end.

End JSON.

(** ** Regular expressions: the fragment the route uses *)

Module RegExp.

Inductive char_class :=
| CUnit (c : N)                    (* one code unit, as in [\{] *)
| CSpace                           (* [\s] *)
| CNonSpace                        (* [\S] *)
| CUnion (a b : char_class).       (* a bracketed class of two *)

(** WhiteSpace and LineTerminator code units, what [\s] matches. *)
Definition is_space (c : N) : bool :=
  ((9 <=? c)%N && (c <=? 13)%N) || N.eqb c 32 || N.eqb c 160
  || N.eqb c 5760 || ((8192 <=? c)%N && (c <=? 8202)%N)
  || N.eqb c 8232 || N.eqb c 8233 || N.eqb c 8239 || N.eqb c 8287
  || N.eqb c 12288 || N.eqb c 65279.

Fixpoint class_mem (cls : char_class) (c : N) : bool :=
  match cls with
  | CUnit u => N.eqb c u
  | CSpace => is_space c
  | CNonSpace => negb (is_space c)
  | CUnion a b => class_mem a c || class_mem b c
  end.

Inductive regex :=
| RClass (cls : char_class)        (* one code unit of the class *)
| RStar (cls : char_class)         (* greedy repetition of a class *)
| RSeq (r1 r2 : regex).

(** The backtracking matcher: [k] continues the match on the rest of the
    input and answers with the input left after the whole match. The
    greedy star first extends the repetition and comes back to a shorter
    one only when the continuation fails. *)
Fixpoint star (cls : char_class) (s : jsstring)
         (k : jsstring -> option jsstring) : option jsstring :=
  match s with
  | c :: s' =>
      if class_mem cls c then
        match star cls s' k with
        | Some rest => Some rest
        | None => k s
        end
      else k s
  | [] => k s
  end.

Fixpoint run (r : regex) (s : jsstring)
         (k : jsstring -> option jsstring) : option jsstring :=
  match r with
  | RClass cls =>
      match s with
      | c :: s' => if class_mem cls c then k s' else None
      | [] => None
      end
  | RStar cls => star cls s k
  | RSeq r1 r2 => run r1 s (fun s1 => run r2 s1 k)
  end.

(** The match that starts at the head of [s], if there is one. *)
Definition match_here (r : regex) (s : jsstring) : option jsstring :=
  match run r s Some with
  | Some rest => Some (firstn (List.length s - List.length rest) s)
  | None => None
  end.

(** [s.match(r)[0]] for a regular expression without flags: the match at
    the leftmost position where there is one; [None] when [match] gives
    [null]. *)
Fixpoint String_match (s : jsstring) (r : regex) : option jsstring :=
  match match_here r s with
  | Some m => Some m
  | None =>
      match s with
      | [] => None
      | _ :: s' => String_match s' r
      end
  end.

End RegExp.

(** ** [src/app/api/analyze/route.ts] *)

Module Route.

Import JSON RegExp.

(** What [NextResponse.json(body, { status })] answers. *)
Record Response := { status : Z; body : value }.

Definition NextResponse_json (b : value) (st : Z) : Response :=
  {| status := st; body := b |}.

(** A thrown error, as far as the handler looks at it. *)
Record JsError := { message : jsstring }.

Inductive completion (A : Type) :=
| Normal (a : A)
| Throw (e : JsError).
Arguments Normal {A} a.
Arguments Throw {A} e.

(** The request [openai.chat.completions.create] is given, with the key
    the client was built from. *)
Record ChatRequest := {
  client_apiKey : value;
  model : jsstring;
  system_content : jsstring;
  user_text : jsstring;
  image_url : value;
  max_tokens : Z
}.

(** What the handler takes from its environment: the texts of the errors
    the engine throws, and the model behind the OpenAI client, which either
    throws or answers with [response.choices[0]?.message?.content]
    ([None]: undefined or null). *)
Record Host := {
  syntax_error_message : jsstring -> jsstring;
  destructure_error_message : jsstring;
  chat_completions_create : ChatRequest -> completion (option jsstring)
}.

(** The handler runs in a monad of exceptions that keeps the log of the
    requests sent upstream. *)
Definition M (A : Type) : Type :=
  list ChatRequest -> completion A * list ChatRequest.

Definition ret {A} (a : A) : M A := fun log => (Normal a, log).

Definition throw {A} (e : JsError) : M A := fun log => (Throw e, log).

Definition bind {A B} (m : M A) (k : A -> M B) : M B :=
  fun log =>
    match m log with
    | (Normal a, log') => k a log'
    | (Throw e, log') => (Throw e, log')
    end.

Definition try_catch {A} (m : M A) (handler : JsError -> M A) : M A :=
  fun log =>
    match m log with
    | (Normal a, log') => (Normal a, log')
    | (Throw e, log') => handler e log'
    end.

Notation "x <- m ;; k" := (bind m (fun x => k))
  (at level 61, m at next level, right associativity).

Definition new_Error (msg : jsstring) : JsError := {| message := msg |}.

(** ToBoolean, with [None] for undefined. *)
Definition truthy (v : option value) : bool :=
  match v with
  | None => false
  | Some JNull => false
  | Some (JBool b) => b
  | Some (JNumber x) => JsNumber.truthy x
  | Some (JString s) => negb (JsString.eqb s [])
  | Some (JArray _) => true
  | Some (JObject _) => true
  end.

(** [v.key] for a key that no prototype defines: an own property of an
    object, undefined on any other value that can be destructured. *)
Definition property (v : value) (key : jsstring) : option value :=
  match v with
  | JObject members => get members key
  | _ => None
  end.

Definition or_undefined (v : option value) : value :=
  match v with
  | Some w => w
  | None => JNull   (* not reached: a truthy value is defined *)
  end.

Definition system_prompt : jsstring := jsq
"You are a nutrition analysis expert specialized in identifying food items from photos and estimating protein content.

Your task:
1. Identify all visible food items in the image
2. Estimate the quantity of each food item (in grams or ml)
3. Calculate the protein content for each item based on standard nutritional data
4. Return the results in JSON format

Return ONLY valid JSON in this exact format:
{
  'foods': [
    {'name': 'Chicken Breast', 'quantity': '150g', 'protein': 45},
    {'name': 'Cooked Rice', 'quantity': '200g', 'protein': 4}
  ],
  'totalProtein': 49
}

Important:
- Use common Indian and international food items
- Be realistic with portion estimates
- Use standard USDA/IFCT nutritional values
- Round protein to nearest gram
- If you cannot identify food clearly, make your best estimate
- Return ONLY the JSON object, no additional text".

Definition user_prompt : jsstring :=
  js "Analyze this meal photo and tell me the protein content of each food item.".

(** [/\{[\s\S]*\}/] *)
Definition json_pattern : regex :=
  RSeq (RClass (CUnit 123))
       (RSeq (RStar (CUnion CSpace CNonSpace)) (RClass (CUnit 125))).

Definition error_body (msg : jsstring) : value :=
  JObject [(js "error", JString msg)].

(** The request made of a key and an image. *)
Definition chat_request (apiKey image : value) : ChatRequest :=
  {| client_apiKey := apiKey;
     model := js "gpt-4o";
     system_content := system_prompt;
     user_text := user_prompt;
     image_url := image;
     max_tokens := 1000 |}.

(** [a || b] on strings: the empty string is falsy. *)
Definition or_else (a b : jsstring) : jsstring :=
  match a with
  | [] => b
  | _ => a
  end.

Section Handler.

Variable host : Host.

(** [JSON.parse(text)] *)
Definition JSON_parse (text : jsstring) : M value :=
  match parse text with
  | Some v => ret v
  | None => throw (new_Error (syntax_error_message host text))
  end.

(** [await request.json()]: the body of the request, parsed as JSON. *)
Definition request_json (text : jsstring) : M value := JSON_parse text.

(** [const { image, apiKey } = ...]: null cannot be destructured. *)
Definition destructure (v : value) : M (option value * option value) :=
  match v with
  | JNull => throw (new_Error (destructure_error_message host))
  | _ => ret (property v (js "image"), property v (js "apiKey"))
  end.

(** [await openai.chat.completions.create({...})] on a client built with
    [new OpenAI({ apiKey })]. *)
Definition create (apiKey image : value) : M (option jsstring) :=
  fun log =>
    let req := chat_request apiKey image in
    (chat_completions_create host req, log ++ [req]).

(** The body of the [try] block. *)
Definition POST_try (request_body : jsstring) : M Response :=
  parsed <- request_json request_body ;;
  fields <- destructure parsed ;;
  let '(image, apiKey) := fields in
  if negb (truthy apiKey) then
    ret (NextResponse_json (error_body (js "OpenAI API key is required")) 400)
  else if negb (truthy image) then
    ret (NextResponse_json (error_body (js "Image is required")) 400)
  else
    content <- create (or_undefined apiKey) (or_undefined image) ;;
    match content with
    | None => throw (new_Error (js "No response from OpenAI"))
    | Some [] => throw (new_Error (js "No response from OpenAI"))
    | Some text =>
        match String_match text json_pattern with
        | None => throw (new_Error (js "Invalid response format from OpenAI"))
        | Some jsonMatch0 =>
            analysisResult <- JSON_parse jsonMatch0 ;;
            ret (NextResponse_json analysisResult 200)
        end
    end.

(** The [catch] block: [error.message || 'Failed to analyze image']. *)
Definition POST_catch (error : JsError) : M Response :=
  ret (NextResponse_json
         (error_body (or_else (message error) (js "Failed to analyze image")))
         500).

(** [POST(request)], on the text of the request's body: the response, and
    the requests that were sent to the model. *)
Definition POST (request_body : jsstring) : Response * list ChatRequest :=
  match try_catch (POST_try request_body) POST_catch [] with
  | (Normal response, log) => (response, log)
  | (Throw e, log) =>
      (* not reached: [POST_catch] does not throw. An error that left the
         handler would be answered by the framework, with status 500 and
         no [{ error }] body. *)
      (NextResponse_json JNull 500, log)
  end.

End Handler.

End Route.

(** ** The page component [Home] *)

Module Page.

Import JsNumber.

Inductive Goal := maintain | gain | lose.

Definition Goal_eqb (a b : Goal) : bool :=
  match a, b with
  | maintain, maintain | gain, gain | lose, lose => true
  | _, _ => false
  end.

Record FoodItem := {
  name : jsstring;
  quantity : jsstring;
  protein : float
}.

Record MealAnalysis := {
  foods : list FoodItem;
  totalProtein : float;
  timestamp : jsstring
}.

(** A chosen file: its name, and the data URL [readAsDataURL] reads. *)
Record File := { file_name : jsstring; file_dataURL : jsstring }.

(** The state of the component, one field for each [useState]. *)
Record State := {
  apiKey : jsstring;
  weight : float;
  goal : Goal;
  dailyGoal : float;
  selectedFile : option File;
  previewUrl : jsstring;
  analyzing : bool;
  currentAnalysis : option MealAnalysis;
  mealHistory : list MealAnalysis;
  dailyTotal : float;
  error : jsstring
}.

Definition initial : State := {|
  apiKey := [];
  weight := 70%float;
  goal := maintain;
  dailyGoal := 112%float;
  selectedFile := None;
  previewUrl := [];
  analyzing := false;
  currentAnalysis := None;
  mealHistory := [];
  dailyTotal := 0%float;
  error := []
|}.

(** The state setters. *)

Definition setApiKey (v : jsstring) (s : State) : State :=
  {| apiKey := v; weight := weight s; goal := goal s;
     dailyGoal := dailyGoal s; selectedFile := selectedFile s;
     previewUrl := previewUrl s; analyzing := analyzing s;
     currentAnalysis := currentAnalysis s; mealHistory := mealHistory s;
     dailyTotal := dailyTotal s; error := error s |}.

Definition setWeight (v : float) (s : State) : State :=
  {| apiKey := apiKey s; weight := v; goal := goal s;
     dailyGoal := dailyGoal s; selectedFile := selectedFile s;
     previewUrl := previewUrl s; analyzing := analyzing s;
     currentAnalysis := currentAnalysis s; mealHistory := mealHistory s;
     dailyTotal := dailyTotal s; error := error s |}.

Definition setGoal (v : Goal) (s : State) : State :=
  {| apiKey := apiKey s; weight := weight s; goal := v;
     dailyGoal := dailyGoal s; selectedFile := selectedFile s;
     previewUrl := previewUrl s; analyzing := analyzing s;
     currentAnalysis := currentAnalysis s; mealHistory := mealHistory s;
     dailyTotal := dailyTotal s; error := error s |}.

Definition setDailyGoal (v : float) (s : State) : State :=
  {| apiKey := apiKey s; weight := weight s; goal := goal s;
     dailyGoal := v; selectedFile := selectedFile s;
     previewUrl := previewUrl s; analyzing := analyzing s;
     currentAnalysis := currentAnalysis s; mealHistory := mealHistory s;
     dailyTotal := dailyTotal s; error := error s |}.

Definition setSelectedFile (v : option File) (s : State) : State :=
  {| apiKey := apiKey s; weight := weight s; goal := goal s;
     dailyGoal := dailyGoal s; selectedFile := v;
     previewUrl := previewUrl s; analyzing := analyzing s;
     currentAnalysis := currentAnalysis s; mealHistory := mealHistory s;
     dailyTotal := dailyTotal s; error := error s |}.

Definition setPreviewUrl (v : jsstring) (s : State) : State :=
  {| apiKey := apiKey s; weight := weight s; goal := goal s;
     dailyGoal := dailyGoal s; selectedFile := selectedFile s;
     previewUrl := v; analyzing := analyzing s;
     currentAnalysis := currentAnalysis s; mealHistory := mealHistory s;
     dailyTotal := dailyTotal s; error := error s |}.

Definition setAnalyzing (v : bool) (s : State) : State :=
  {| apiKey := apiKey s; weight := weight s; goal := goal s;
     dailyGoal := dailyGoal s; selectedFile := selectedFile s;
     previewUrl := previewUrl s; analyzing := v;
     currentAnalysis := currentAnalysis s; mealHistory := mealHistory s;
     dailyTotal := dailyTotal s; error := error s |}.

Definition setCurrentAnalysis (v : option MealAnalysis) (s : State) : State :=
  {| apiKey := apiKey s; weight := weight s; goal := goal s;
     dailyGoal := dailyGoal s; selectedFile := selectedFile s;
     previewUrl := previewUrl s; analyzing := analyzing s;
     currentAnalysis := v; mealHistory := mealHistory s;
     dailyTotal := dailyTotal s; error := error s |}.

Definition setMealHistory (v : list MealAnalysis) (s : State) : State :=
  {| apiKey := apiKey s; weight := weight s; goal := goal s;
     dailyGoal := dailyGoal s; selectedFile := selectedFile s;
     previewUrl := previewUrl s; analyzing := analyzing s;
     currentAnalysis := currentAnalysis s; mealHistory := v;
     dailyTotal := dailyTotal s; error := error s |}.

Definition setDailyTotal (v : float) (s : State) : State :=
  {| apiKey := apiKey s; weight := weight s; goal := goal s;
     dailyGoal := dailyGoal s; selectedFile := selectedFile s;
     previewUrl := previewUrl s; analyzing := analyzing s;
     currentAnalysis := currentAnalysis s; mealHistory := mealHistory s;
     dailyTotal := v; error := error s |}.

Definition setError (v : jsstring) (s : State) : State :=
  {| apiKey := apiKey s; weight := weight s; goal := goal s;
     dailyGoal := dailyGoal s; selectedFile := selectedFile s;
     previewUrl := previewUrl s; analyzing := analyzing s;
     currentAnalysis := currentAnalysis s; mealHistory := mealHistory s;
     dailyTotal := dailyTotal s; error := v |}.

(** *** The effects *)

(** [goal === 'gain' ? 2.0 : goal === 'maintain' ? 1.6 : 1.2] *)
Definition multiplier (g : Goal) : float :=
  if Goal_eqb g gain then 2.0%float
  else if Goal_eqb g maintain then 1.6%float
  else 1.2%float.

(** [useEffect(..., [weight, goal])] *)
Definition dailyGoal_effect (s : State) : State :=
  setDailyGoal (Math_round (weight s * multiplier (goal s))%float) s.

(** [array.reduce(f, init)] *)
Definition reduce {A B : Type} (f : B -> A -> B) (init : B) (l : list A) : B :=
  fold_left f l init.

(** [useEffect(..., [mealHistory])] *)
Definition dailyTotal_effect (s : State) : State :=
  let total :=
    reduce (fun sum meal => (sum + totalProtein meal)%float) 0%float
           (mealHistory s) in
  setDailyTotal total s.

(** The first render: both effects run. *)
Definition mount : State := dailyTotal_effect (dailyGoal_effect initial).

(** What follows a handler: the component renders again and the effects
    whose dependencies changed run. [weight] and [goal] are compared by
    [Object.is]; [mealHistory] is an array compared by identity, so the
    handler says whether it stored a new one. *)
Definition commit (before after : State) (new_history : bool) : State :=
  let s1 :=
    if Object_is (weight before) (weight after)
       && Goal_eqb (goal before) (goal after)
    then after else dailyGoal_effect after in
  if new_history then dailyTotal_effect s1 else s1.

(** *** Values computed at each render *)

Definition progressPercentage (s : State) : float :=
  Math_min ((dailyTotal s / dailyGoal s) * 100)%float 100%float.

Definition remaining (s : State) : float :=
  Math_max (dailyGoal s - dailyTotal s)%float 0%float.

(** *** The handlers *)

(** [onChange] of the key input. *)
Definition onApiKeyChange (v : jsstring) (s : State) : State :=
  commit s (setApiKey v s) false.

(** [onChange] of the weight input, on [Number(e.target.value)]. *)
Definition onWeightChange (w : float) (s : State) : State :=
  commit s (setWeight w s) false.

(** [onChange] of the goal select. *)
Definition onGoalChange (g : Goal) (s : State) : State :=
  commit s (setGoal g s) false.

(** [handleFileSelect], on [e.target.files?.[0]] and on the URL that
    [URL.createObjectURL] makes for it. *)
Definition handleFileSelect (file : option File) (url : jsstring)
           (s : State) : State :=
  match file with
  | Some f =>
      commit s
        (setCurrentAnalysis None
           (setError [] (setPreviewUrl url (setSelectedFile (Some f) s))))
        false
  | None => s
  end.

(** What the request to [/api/analyze] comes to. A reply that is [ok] is
    taken here at the types that the interface [MealAnalysis] declares for
    it, an array of foods and a number. The source does not check them: it
    stores [data.foods] and [data.totalProtein] as [response.json()] gives
    them. What the page computes from a reply of any other shape is the
    matter of [Payload], below. *)
Inductive FetchOutcome :=
| FetchRejected (msg : jsstring)
    (* [fetch] or [response.json()] rejects with an error of this message *)
| ResponseNotOk (errorData_error : option jsstring)
    (* [!response.ok], with [errorData.error] *)
| ResponseOk (data_foods : list FoodItem) (data_totalProtein : float).
    (* [response.ok], with a reply of the declared types *)

(** The [try] block of [analyzeImage]: it creates the reader, starts the
    read and stores the [onloadend] callback; none of these throws. The
    callback itself runs later, from the event loop. *)
Definition analyzeImage_try (file : File) : Route.completion unit :=
  Route.Normal tt.

(** [analyzeImage]: the state it leaves, and whether it registered the
    [onloadend] callback. *)
Definition analyzeImage (s : State) : State * bool :=
  match selectedFile s with
  | Some file =>
      if JsString.eqb (apiKey s) [] then
        (commit s
           (setError (js "Please provide an OpenAI API key and select an image") s)
           false, false)
      else
        let s1 := setError [] (setAnalyzing true s) in
        match analyzeImage_try file with
        | Route.Normal _ =>
            (* finally *)
            (commit s (setAnalyzing false s1) false, true)
        | Route.Throw err =>
            (* catch, then finally *)
            let msg := Route.message err in
            (commit s (setAnalyzing false (setError msg s1)) false, false)
        end
  | None =>
      (commit s
         (setError (js "Please provide an OpenAI API key and select an image") s)
         false, false)
  end.

(** The [async] callback stored in [reader.onloadend]: the state it
    leaves, and the error its promise is rejected with, if any. Nothing
    awaits that promise and no handler is attached to it. *)
Definition onloadend (outcome : FetchOutcome) (now : jsstring) (s : State)
  : State * option Route.JsError :=
  match outcome with
  | FetchRejected msg => (s, Some (Route.new_Error msg))
  | ResponseNotOk errorData_error =>
      let msg := match errorData_error with
                 | Some (c :: m) => c :: m
                 | _ => js "Failed to analyze image"
                 end in
      (s, Some (Route.new_Error msg))
  | ResponseOk data_foods data_totalProtein =>
      let analysis := {| foods := data_foods;
                         totalProtein := data_totalProtein;
                         timestamp := now |} in
      (commit s
         (setMealHistory (mealHistory s ++ [analysis])
            (setCurrentAnalysis (Some analysis) s))
         true, None)
  end.

Definition resetDay (s : State) : State :=
  commit s
    (setPreviewUrl []
       (setSelectedFile None (setCurrentAnalysis None (setMealHistory [] s))))
    true.

(** *** The component in its environment

    The page, and the number of [onloadend] callbacks that were registered
    and did not run yet. *)

Record World := { page : State; pending : nat }.

Inductive Event :=
| ApiKeyInput (v : jsstring)
| WeightInput (w : float)
| GoalSelect (g : Goal)
| FileChosen (file : option File) (url : jsstring)
| AnalyzeClick
| LoadEnd (outcome : FetchOutcome) (now : jsstring)
| ResetClick.

(** Whether the page, as rendered, lets the event happen: the file input
    is disabled without a key, the analyze button shows with the preview
    and is disabled while analyzing or without a key, the reset button
    shows once the history has a meal. *)
Definition enabled (e : Event) (w : World) : bool :=
  let s := page w in
  match e with
  | ApiKeyInput _ | WeightInput _ | GoalSelect _ => true
  | FileChosen _ _ => negb (JsString.eqb (apiKey s) [])
  | AnalyzeClick =>
      negb (JsString.eqb (previewUrl s) [])
      && negb (analyzing s) && negb (JsString.eqb (apiKey s) [])
  | LoadEnd _ _ => negb (Nat.eqb (pending w) 0)
  | ResetClick => negb (Nat.eqb (List.length (mealHistory s)) 0)
  end.

Definition handle (e : Event) (w : World) : World :=
  let s := page w in
  match e with
  | ApiKeyInput v => {| page := onApiKeyChange v s; pending := pending w |}
  | WeightInput x => {| page := onWeightChange x s; pending := pending w |}
  | GoalSelect g => {| page := onGoalChange g s; pending := pending w |}
  | FileChosen file url =>
      {| page := handleFileSelect file url s; pending := pending w |}
  | AnalyzeClick =>
      let '(s', registered) := analyzeImage s in
      {| page := s';
         pending := if registered then S (pending w) else pending w |}
  | LoadEnd outcome now =>
      {| page := fst (onloadend outcome now s);
         pending := Nat.pred (pending w) |}
  | ResetClick => {| page := resetDay s; pending := pending w |}
  end.

(** Running a sequence of events, each one checked against the page. *)
Fixpoint run (events : list Event) (w : World) : option World :=
  match events with
  | [] => Some w
  | e :: rest => if enabled e w then run rest (handle e w) else None
  end.

Definition start : World := {| page := mount; pending := 0 |}.

Inductive reachable : World -> Prop :=
| reachable_start : reachable start
| reachable_step (w : World) (e : Event) :
    reachable w -> enabled e w = true -> reachable (handle e w).

End Page.

(** ** Values without types: [String(x)] and the operator [+] *)

Module JsValue.

Import JsNumber JSON.

(** *** [Number::toString] *)

(** The decimal digits of a natural number, the most significant first. *)
Fixpoint digits_from (fuel : nat) (n : Z) (acc : jsstring) : jsstring :=
  let acc' := Z.to_N (48 + n mod 10) :: acc in
  match fuel with
  | O => acc'
  | S fuel' => if n <? 10 then acc' else digits_from fuel' (n / 10) acc'
  end.

Definition decimal (n : Z) : jsstring :=
  digits_from (Z.to_nat (Z.log2 n)) n [].

(** The finite positive number [m * 2^e] divided by [10^E], as a fraction
    of two positive integers. *)
Definition scaled (m : positive) (e E : Z) : Z * Z :=
  (Zpos m * 2 ^ Z.max e 0 * 10 ^ Z.max (- E) 0,
   2 ^ Z.max (- e) 0 * 10 ^ Z.max E 0).

Definition below_pow10 (m : positive) (e n : Z) : bool :=
  let '(num, den) := scaled m e n in num <? den.

(** The [n] with [10^(n-1) <= m * 2^e < 10^n]: the first power of ten
    above the number, looked for from below an estimate that the binary
    logarithm gives. *)
Fixpoint magnitude_from (fuel : nat) (m : positive) (e n : Z) : Z :=
  match fuel with
  | O => n
  | S fuel' =>
      if below_pow10 m e n then n else magnitude_from fuel' m e (n + 1)
  end.

Definition magnitude (m : positive) (e : Z) : Z :=
  magnitude_from 6 m e ((Z.log2 (Zpos m) + e) * 30103 / 100000 - 1).

(** Whether the decimal [s * 10^E] denotes the number [m * 2^e]: whether
    it is the number nearest to it. *)
Definition denotes (m : positive) (e s E : Z) : bool :=
  spec_float_eqb (Prim2SF (of_decimal false s E)) (S754_finite false m e).

(** The decimals of [k] digits next to the number, below and above it: the
    one that denotes the number; when both do, the closer of the two, and
    the even one when they are as close. *)
Definition candidate (m : positive) (e n k : Z) : option (Z * Z) :=
  let E := n - k in
  let '(num, den) := scaled m e E in
  let q := num / den in
  let r := num - q * den in
  let low := (1 <=? q) && denotes m e q E in
  let high := denotes m e (q + 1) E in
  if low && high then
    match 2 * r ?= den with
    | Lt => Some (q, E)
    | Gt => Some (q + 1, E)
    | Eq => if Z.even q then Some (q, E) else Some (q + 1, E)
    end
  else if low then Some (q, E)
  else if high then Some (q + 1, E)
  else None.

(** The shortest decimal that denotes the number: the least number of
    digits for which there is one. Seventeen digits always do. *)
Fixpoint shortest_from (fuel : nat) (m : positive) (e n k : Z) : Z * Z :=
  match candidate m e n k with
  | Some d => d
  | None =>
      match fuel with
      | O => (Zpos m, 0)   (* not reached *)
      | S fuel' => shortest_from fuel' m e n (k + 1)
      end
  end.

(** A decimal without the zeros that end its digits (the decimal above a
    number can be a power of ten). *)
Fixpoint strip_zeros (fuel : nat) (d : Z * Z) : Z * Z :=
  let '(s, E) := d in
  match fuel with
  | O => d
  | S fuel' =>
      if (s mod 10 =? 0) && (0 <? s) then strip_zeros fuel' (s / 10, E + 1)
      else d
  end.

Definition zeros (n : Z) : jsstring := repeat 48%N (Z.to_nat n).

(** The text of the decimal [0.digits * 10^n]: plain digits up to 21 of
    them before the point and up to 6 zeros after it, the exponent
    notation otherwise. *)
Definition layout (digits : jsstring) (n : Z) : jsstring :=
  let k := Z.of_nat (List.length digits) in
  if (k <=? n) && (n <=? 21) then digits ++ zeros (n - k)
  else if (0 <? n) && (n <=? 21) then
    firstn (Z.to_nat n) digits ++ 46%N :: skipn (Z.to_nat n) digits
  else if (-6 <? n) && (n <=? 0) then
    48%N :: 46%N :: zeros (- n) ++ digits
  else
    let exponent :=
      101%N :: (if 0 <=? n - 1 then 43%N else 45%N)
            :: decimal (Z.abs (n - 1)) in
    match digits with
    | [d] => d :: exponent
    | d :: rest => d :: 46%N :: rest ++ exponent
    | [] => exponent
    end.

(** [Number::toString(x)] in radix 10: what [String(x)] gives, and what
    [+] turns a number into next to a string. *)
Definition Number_toString (x : float) : jsstring :=
  match Prim2SF x with
  | S754_nan => js "NaN"
  | S754_zero _ => js "0"
  | S754_infinity s => if s then js "-Infinity" else js "Infinity"
  | S754_finite s m e =>
      let '(d, E) := strip_zeros 20 (shortest_from 17 m e (magnitude m e) 1) in
      let digits := decimal d in
      let text := layout digits (E + Z.of_nat (List.length digits)) in
      if s then 45%N :: text else text
  end.

(** *** Conversions *)

(** [String(v)] of a value that [JSON.parse] made; [None] when it throws a
    TypeError. An array is joined with commas, null giving nothing. An
    object is '[object Object]' by the [toString] it inherits; an own
    property of that name hides it and cannot be called. *)
Fixpoint ToString (v : value) : option jsstring :=
  match v with
  | JNull => Some (js "null")
  | JBool b => Some (if b then js "true" else js "false")
  | JNumber x => Some (Number_toString x)
  | JString s => Some s
  | JArray elements =>
      (fix join (l : list value) : option jsstring :=
         match l with
         | [] => Some []
         | x :: rest =>
             match match x with JNull => Some [] | _ => ToString x end,
                   join rest with
             | Some a, Some b =>
                 Some (match rest with [] => a | _ :: _ => a ++ 44%N :: b end)
             | _, _ => None
             end
         end) elements
  | JObject members =>
      match get members (js "toString") with
      | Some _ => None
      | None => Some (js "[object Object]")
      end
  end.

Inductive primitive :=
| PUndefined
| PNull
| PBoolean (b : bool)
| PNumber (x : float)
| PString (s : jsstring).

(** ToPrimitive, with [None] for undefined as an argument and for a
    TypeError as a result: arrays and objects become strings. *)
Definition ToPrimitive (v : option value) : option primitive :=
  match v with
  | None => Some PUndefined
  | Some JNull => Some PNull
  | Some (JBool b) => Some (PBoolean b)
  | Some (JNumber x) => Some (PNumber x)
  | Some (JString s) => Some (PString s)
  | Some w =>
      match ToString w with
      | Some s => Some (PString s)
      | None => None
      end
  end.

(** ToNumber of a primitive that is not a string; [None] for a string. *)
Definition number_of (p : primitive) : option float :=
  match p with
  | PUndefined => Some nan
  | PNull => Some 0%float
  | PBoolean b => Some (if b then 1%float else 0%float)
  | PNumber x => Some x
  | PString _ => None
  end.

(** ToString of a primitive. *)
Definition text_of (p : primitive) : jsstring :=
  match p with
  | PUndefined => js "undefined"
  | PNull => js "null"
  | PBoolean b => if b then js "true" else js "false"
  | PNumber x => Number_toString x
  | PString s => s
  end.

(** [l + r] on primitives: the sum of two numbers, unless one of the two
    is a string; then the texts of both, one after the other. *)
Definition add (l r : primitive) : primitive :=
  match number_of l, number_of r with
  | Some x, Some y => PNumber (x + y)%float
  | _, _ => PString (text_of l ++ text_of r)
  end.

End JsValue.

(** ** The reply as the page takes it *)

Module Payload.

Import JSON JsValue.

(** The object that [onloadend] builds from the reply (lines 88 to 92):
    [foods] and [totalProtein] are what the reply holds under these names,
    [None] for undefined. *)
Record Meal := {
  foods : option value;
  totalProtein : option value;
  timestamp : jsstring
}.

(** [{ foods: data.foods, totalProtein: data.totalProtein, timestamp }] on
    the value [response.json()] gave and the time of the day; [None] when
    reading the properties throws, which it does of null. *)
Definition analysis (data : value) (now : jsstring) : option Meal :=
  match data with
  | JNull => None
  | _ =>
      Some {| foods := Route.property data (js "foods");
              totalProtein := Route.property data (js "totalProtein");
              timestamp := now |}
  end.

(** [sum + meal.totalProtein] *)
Definition plus (sum : primitive) (meal : Meal) : option primitive :=
  match ToPrimitive (totalProtein meal) with
  | Some p => Some (add sum p)
  | None => None
  end.

(** [mealHistory.reduce((sum, meal) => sum + meal.totalProtein, 0)]: the
    value that the effect gives to [setDailyTotal]; [None] when the
    addition throws. *)
Definition total (mealHistory : list Meal) : option primitive :=
  Page.reduce
    (fun sum meal =>
       match sum with
       | Some s => plus s meal
       | None => None
       end)
    (Some (PNumber 0%float)) mealHistory.

(** A meal of the declared types, as the value it is. *)
Definition of_FoodItem (f : Page.FoodItem) : value :=
  JObject [(js "name", JString (Page.name f));
           (js "quantity", JString (Page.quantity f));
           (js "protein", JNumber (Page.protein f))].

Definition of_MealAnalysis (m : Page.MealAnalysis) : Meal :=
  {| foods := Some (JArray (map of_FoodItem (Page.foods m)));
     totalProtein := Some (JNumber (Page.totalProtein m));
     timestamp := Page.timestamp m |}.

End Payload.

(** ** The specification's own notions *)

Module Spec.

Import Page.

(** The multiplier of a goal, as the specification tabulates it. *)
Definition multiplier (g : Goal) : float :=
  match g with
  | lose => 1.2%float
  | maintain => 1.6%float
  | gain => 2.0%float
  end.

(** The same multipliers in tenths, for exact arithmetic. *)
Definition tenths (g : Goal) : Z :=
  match g with
  | lose => 12
  | maintain => 16
  | gain => 20
  end.

(** [round(kg * multiplier)] over the rationals, a half rounding up:
    the floor of [kg * tenths / 10 + 1/2]. *)
Definition round_exact (kg : Z) (g : Goal) : Z :=
  (2 * kg * tenths g + 10) / 20.

(** The sum of the first [n] numbers of a list, added in order. *)
Fixpoint partial_sum (xs : list float) (n : nat) : float :=
  match n with
  | O => 0%float
  | S k => (partial_sum xs k + nth k xs 0%float)%float
  end.

Definition sum (xs : list float) : float := partial_sum xs (List.length xs).

(** A text has a brace-delimited substring when an opening brace is
    followed, at any distance, by a closing one. *)
Definition brace_delimited (text : jsstring) : Prop :=
  exists a b c : jsstring, text = a ++ 123%N :: b ++ 125%N :: c.

(** Comparisons of numbers, as propositions. *)
Definition le (x y : float) : Prop := (x <=? y)%float = true.
Definition lt (x y : float) : Prop := (x <? y)%float = true.

End Spec.

(* ================================================================== *)
(** * Part II: properties *)
(* ================================================================== *)

(** ** Facts on binary64 numbers *)

Module FloatFacts.

Definition sf_is_nan (a : spec_float) : bool :=
  match a with S754_nan => true | _ => false end.

(** Not NaN, and zero or of positive sign. *)
Definition sf_nonneg (a : spec_float) : bool :=
  match a with
  | S754_zero _ => true
  | S754_infinity s => negb s
  | S754_finite s _ _ => negb s
  | S754_nan => false
  end.

Lemma SFcompare_refl (a : spec_float) :
  SFcompare a a = if sf_is_nan a then None else Some Eq.
Proof.
  destruct a as [s|s| |s m e]; simpl; try reflexivity.
  - destruct s; reflexivity.
  - rewrite Z.compare_refl, Pos.compare_cont_refl. destruct s; reflexivity.
Qed.

Lemma is_nan_spec (x : float) : is_nan x = sf_is_nan (Prim2SF x).
Proof.
  unfold is_nan. rewrite eqb_spec. unfold SFeqb. rewrite SFcompare_refl.
  destruct (sf_is_nan (Prim2SF x)); reflexivity.
Qed.

Lemma SFcompare_antisym (a b : spec_float) :
  SFcompare b a = option_map CompOpp (SFcompare a b).
Proof.
  destruct a as [s|s| |s m e], b as [t|t| |t n f]; simpl;
    try reflexivity; try (destruct s; reflexivity); try (destruct t; reflexivity);
    try (destruct s, t; reflexivity).
  destruct s, t; simpl; try reflexivity;
    rewrite (Z.compare_antisym f e);
    destruct (f ?= e); simpl; try reflexivity;
    rewrite (Pos.compare_cont_antisym m n Eq); simpl; reflexivity.
Qed.

Lemma SFcompare_None (a b : spec_float) :
  SFcompare a b = None -> sf_is_nan a || sf_is_nan b = true.
Proof.
  destruct a as [s|s| |s m e], b as [t|t| |t n f]; simpl;
    try reflexivity; try discriminate.
Qed.

Lemma leb_zero_spec (x : float) : (0 <=? x)%float = sf_nonneg (Prim2SF x).
Proof.
  rewrite leb_spec. change (Prim2SF 0%float) with (S754_zero false).
  destruct (Prim2SF x) as [s|s| |s m e]; simpl; try reflexivity;
    destruct s; reflexivity.
Qed.

Lemma ltb_leb (x y : float) : (x <? y)%float = true -> (x <=? y)%float = true.
Proof.
  rewrite ltb_spec, leb_spec. unfold SFltb, SFleb.
  destruct (SFcompare (Prim2SF x) (Prim2SF y)) as [[ | | ]|]; congruence.
Qed.

(** Two numbers that are not NaN compare one way or the other. *)
Lemma leb_total (x y : float) :
  is_nan x = false -> is_nan y = false ->
  (x <? y)%float = false -> (y <=? x)%float = true.
Proof.
  rewrite !is_nan_spec, ltb_spec, leb_spec. unfold SFltb, SFleb.
  intros Hx Hy. rewrite (SFcompare_antisym (Prim2SF x) (Prim2SF y)).
  destruct (SFcompare (Prim2SF x) (Prim2SF y)) as [[ | | ]|] eqn:E; simpl;
    try congruence.
  apply SFcompare_None in E. rewrite Hx, Hy in E. discriminate.
Qed.

Lemma ltb_irrefl_nan (x y : float) :
  is_nan x = true -> (x <? y)%float = false /\ (y <? x)%float = false
                     /\ (x <=? y)%float = false /\ (y <=? x)%float = false.
Proof.
  rewrite is_nan_spec, !ltb_spec, !leb_spec. unfold SFltb, SFleb.
  destruct (Prim2SF x); try discriminate. intros _.
  destruct (Prim2SF y); simpl; auto.
Qed.

(** *** Rounding keeps the sign *)

Definition sf_signed (s : bool) (a : spec_float) : Prop :=
  match a with
  | S754_zero t | S754_infinity t | S754_finite t _ _ => t = s
  | S754_nan => False
  end.

Lemma iter_pos_invariant {A : Type} (P : A -> Prop) (f : A -> A) :
  (forall a, P a -> P (f a)) ->
  forall (p : positive) (a : A), P a -> P (iter_pos f p a).
Proof.
  intros Hf. induction p as [p IH|p IH|]; intros a Ha; simpl; auto.
Qed.

Lemma shr_1_nonneg (mrs : shr_record) :
  0 <= shr_m mrs -> 0 <= shr_m (shr_1 mrs).
Proof.
  destruct mrs as [m r s]. simpl.
  destruct m as [|[p|p|]|[p|p|]]; simpl; lia.
Qed.

Lemma shr_nonneg (mrs : shr_record) (e n : Z) :
  0 <= shr_m mrs -> 0 <= shr_m (fst (shr mrs e n)).
Proof.
  intros H. unfold shr. destruct n as [|p|p]; simpl; auto.
  apply (iter_pos_invariant (fun r => 0 <= shr_m r)); auto using shr_1_nonneg.
Qed.

Lemma shr_fexp_nonneg (m e : Z) (l : location) :
  0 <= m -> 0 <= shr_m (fst (shr_fexp prec emax m e l)).
Proof.
  intros H. unfold shr_fexp. apply shr_nonneg.
  destruct l as [|[ | | ]]; simpl; exact H.
Qed.

Lemma round_nearest_even_nonneg (m : Z) (l : location) :
  0 <= m -> 0 <= round_nearest_even m l.
Proof.
  intros H. destruct l as [|[ | | ]]; simpl; try lia.
  destruct (Z.even m); lia.
Qed.

Lemma binary_round_aux_signed (s : bool) (m e : Z) (l : location) :
  0 <= m -> sf_signed s (binary_round_aux prec emax s m e l).
Proof.
  intros H. unfold binary_round_aux.
  pose proof (shr_fexp_nonneg m e l H) as H1.
  destruct (shr_fexp prec emax m e l) as [mrs' e'] eqn:E1. simpl in H1.
  pose proof (shr_fexp_nonneg _ e' loc_Exact
                (round_nearest_even_nonneg _ (loc_of_shr_record mrs') H1)) as H2.
  destruct (shr_fexp prec emax _ e' loc_Exact) as [mrs'' e''] eqn:E2.
  simpl in H2.
  destruct (shr_m mrs'') as [|p|p]; simpl; try reflexivity; try lia.
  match goal with |- context [if ?c then _ else _] => destruct c end;
    simpl; reflexivity.
Qed.

Lemma binary_round_signed (s : bool) (m : positive) (e : Z) :
  sf_signed s (binary_round prec emax s m e).
Proof.
  unfold binary_round. destruct (shl_align _ _ _) as [mz ez].
  apply binary_round_aux_signed. lia.
Qed.

Lemma sf_signed_nonneg (a : spec_float) : sf_signed false a -> sf_nonneg a = true.
Proof. destruct a; simpl; intros H; subst; tauto || reflexivity. Qed.

(** Sums, products and quotients of numbers that are not negative. *)

Lemma SF64add_nonneg (a b : spec_float) :
  sf_nonneg a = true -> sf_nonneg b = true -> sf_nonneg (SF64add a b) = true.
Proof.
  destruct a as [s|s| |s m e], b as [t|t| |t n f]; simpl; try discriminate;
    try (destruct s, t; simpl; congruence).
  destruct s, t; simpl; try discriminate. intros _ _.
  apply sf_signed_nonneg.
  unfold binary_normalize.
  destruct (shl_align m e (Z.min e f)) as [m1 e1].
  destruct (shl_align n f (Z.min e f)) as [n1 f1]. simpl.
  apply binary_round_signed.
Qed.

Lemma SFdiv_core_nonneg (m1 m2 : positive) (e1 e2 : Z) :
  0 <= fst (fst (SFdiv_core_binary prec emax (Zpos m1) e1 (Zpos m2) e2)).
Proof.
  unfold SFdiv_core_binary.
  set (s := e1 - e2 - _).
  set (m' := match s with Z0 => _ | Zpos _ => _ | Zneg _ => _ end).
  assert (Hm : 0 <= m').
  { subst m'. destruct s; try lia. apply Z.shiftl_nonneg. lia. }
  pose proof (Z.div_eucl_eq m' (Zpos m2)) as Hq.
  pose proof (Z.mod_pos_bound m' (Zpos m2)) as Hr.
  unfold Z.modulo in Hr.
  destruct (Z.div_eucl m' (Zpos m2)) as [q r]. simpl.
  specialize (Hq ltac:(lia)). specialize (Hr ltac:(lia)). nia.
Qed.

(** Positive and finite. *)
Definition sf_posfin (a : spec_float) : bool :=
  match a with
  | S754_finite s _ _ => negb s
  | _ => false
  end.

Lemma posfin_spec (x : float) :
  (0 <? x)%float && (x <? infinity)%float = sf_posfin (Prim2SF x).
Proof.
  rewrite !ltb_spec. change (Prim2SF 0%float) with (S754_zero false).
  change (Prim2SF infinity) with (S754_infinity false).
  destruct (Prim2SF x) as [s|s| |s m e]; simpl; try reflexivity;
    destruct s; reflexivity.
Qed.

Lemma SF64div_nonneg (a b : spec_float) :
  sf_nonneg a = true -> sf_posfin b = true -> sf_nonneg (SF64div a b) = true.
Proof.
  destruct a as [s|s| |s m e], b as [t|t| |t n f]; simpl; try discriminate;
    try (destruct s, t; simpl; congruence).
  destruct s, t; simpl; try discriminate. intros _ _.
  pose proof (SFdiv_core_nonneg m n e f) as H.
  destruct (SFdiv_core_binary prec emax (Zpos m) e (Zpos n) f) as [[q e'] l].
  simpl in H. apply sf_signed_nonneg. apply binary_round_aux_signed. exact H.
Qed.

Lemma SF64mul_nonneg_posfin (a b : spec_float) :
  sf_nonneg a = true -> sf_posfin b = true -> sf_nonneg (SF64mul a b) = true.
Proof.
  destruct a as [s|s| |s m e], b as [t|t| |t n f]; simpl; try discriminate;
    try (destruct s, t; simpl; congruence).
  destruct s, t; simpl; try discriminate. intros _ _.
  apply sf_signed_nonneg. apply binary_round_aux_signed. lia.
Qed.

(** *** The difference of two ordered numbers *)

Lemma digits2_pos_bounds (m : positive) :
  2 ^ (Zpos (digits2_pos m) - 1) <= Zpos m < 2 ^ Zpos (digits2_pos m).
Proof.
  induction m as [p IH|p IH|]; cbn [digits2_pos].
  - rewrite Pos2Z.inj_succ, Z.pow_succ_r by lia.
    replace (Z.succ (Zpos (digits2_pos p)) - 1)
      with (Z.succ (Zpos (digits2_pos p) - 1)) by lia.
    rewrite Z.pow_succ_r by lia. lia.
  - rewrite Pos2Z.inj_succ, Z.pow_succ_r by lia.
    replace (Z.succ (Zpos (digits2_pos p)) - 1)
      with (Z.succ (Zpos (digits2_pos p) - 1)) by lia.
    rewrite Z.pow_succ_r by lia. lia.
  - simpl. lia.
Qed.

Lemma shl_align_value (m : positive) (e e' : Z) :
  e' <= e -> Zpos (fst (shl_align m e e')) = Zpos m * 2 ^ (e - e').
Proof.
  intros H. unfold shl_align.
  destruct (e' - e) as [|d|d] eqn:D; cbn [fst].
  - replace (e - e') with 0 by lia. lia.
  - lia.
  - change (Pos.iter xO m d) with (Zpower.shift_pos d m).
    rewrite Zpower.shift_pos_correct.
    replace (e - e') with (Zpos d) by lia.
    change (Z.pow_pos 2 d) with (2 ^ Zpos d). lia.
Qed.

(** Of two canonical mantissas, the one with the smaller exponent, or with
    the same exponent and smaller, is the smaller once both are aligned. *)
Lemma aligned_lt (m1 m2 : positive) (e1 e2 : Z) :
  canonical_mantissa prec emax m1 e1 = true ->
  canonical_mantissa prec emax m2 e2 = true ->
  match e1 ?= e2 with
  | Lt => True
  | Eq => Pos.compare_cont Eq m1 m2 = Lt
  | Gt => False
  end ->
  Zpos (fst (shl_align m1 e1 (Z.min e1 e2)))
  < Zpos (fst (shl_align m2 e2 (Z.min e1 e2))).
Proof.
  unfold canonical_mantissa, fexp, SpecFloat.emin. intros C1 C2 H.
  apply Z.eqb_eq in C1. apply Z.eqb_eq in C2.
  change (Z.max (Zpos (digits2_pos m1) + e1 - prec) (3 - emax - prec) = e1)
    in C1.
  change (Z.max (Zpos (digits2_pos m2) + e2 - prec) (3 - emax - prec) = e2)
    in C2.
  rewrite (shl_align_value m1 e1) by apply Z.le_min_l.
  rewrite (shl_align_value m2 e2) by apply Z.le_min_r.
  revert H. destruct (Z.compare_spec e1 e2) as [E|L|G]; intros H;
    [| |contradiction].
  - subst e2. rewrite Z.min_id, Z.sub_diag, Z.pow_0_r.
    change (Pos.compare_cont Eq m1 m2) with (Pos.compare m1 m2) in H.
    apply Pos2Z.pos_lt_pos in H. lia.
  - rewrite Z.min_l by lia. rewrite Z.sub_diag, Z.pow_0_r.
    pose proof (digits2_pos_bounds m1) as [_ B1].
    pose proof (digits2_pos_bounds m2) as [B2 _].
    set (d1 := Zpos (digits2_pos m1)) in *.
    set (d2 := Zpos (digits2_pos m2)) in *.
    assert (Hd : d1 <= d2 - 1 + (e2 - e1)) by lia.
    assert (P : 2 ^ d1 <= 2 ^ (d2 - 1 + (e2 - e1)))
      by (apply Z.pow_le_mono_r; lia).
    rewrite Z.pow_add_r in P by (unfold d2; lia).
    assert (0 < 2 ^ (e2 - e1)) by (apply Z.pow_pos_nonneg; lia).
    nia.
Qed.

(** Not NaN, and zero or of negative sign. *)
Definition sf_nonpos (a : spec_float) : bool :=
  match a with
  | S754_zero _ => true
  | S754_infinity s => s
  | S754_finite s _ _ => s
  | S754_nan => false
  end.

Lemma sf_signed_nonpos (a : spec_float) : sf_signed true a -> sf_nonpos a = true.
Proof. destruct a; simpl; intros H; subst; tauto || reflexivity. Qed.

Lemma SF64sub_nonpos (a b : spec_float) :
  valid_binary a = true -> valid_binary b = true ->
  SFltb a b = true -> sf_nonpos (SF64sub a b) = true.
Proof.
  unfold SFltb.
  destruct a as [s|s| |s m e], b as [t|t| |t n f]; simpl; try discriminate;
    try (destruct s, t; simpl; congruence);
    try (destruct s; simpl; congruence);
    try (destruct t; simpl; congruence).
  unfold bounded. rewrite !andb_true_iff. intros [Ca _] [Cb _] L.
  apply sf_signed_nonpos.
  set (ez := Z.min e f).
  assert (Hneg : cond_Zopp s (Zpos (fst (shl_align m e ez)))
                 - cond_Zopp t (Zpos (fst (shl_align n f ez))) < 0).
  { destruct s, t; simpl in L; cbn [cond_Zopp]; try discriminate; try lia.
    - (* both negative: the first is the larger in magnitude *)
      assert (A : Zpos (fst (shl_align n f (Z.min f e)))
                  < Zpos (fst (shl_align m e (Z.min f e)))).
      { apply aligned_lt; auto.
        rewrite (Z.compare_antisym e f).
        destruct (e ?= f); simpl in *; try discriminate; auto.
        change (Pos.compare_cont Eq n m) with (Pos.compare n m).
        rewrite (Pos.compare_antisym m n).
        change (Pos.compare m n) with (Pos.compare_cont Eq m n).
        destruct (Pos.compare_cont Eq m n); simpl in *; try discriminate; auto. }
      rewrite (Z.min_comm f e) in A. fold ez in A. lia.
    - assert (A : Zpos (fst (shl_align m e (Z.min e f)))
                  < Zpos (fst (shl_align n f (Z.min e f)))).
      { apply aligned_lt; auto.
        destruct (e ?= f); simpl in *; try discriminate; auto.
        destruct (Pos.compare_cont Eq m n); simpl in *; try discriminate; auto. }
      fold ez in A. lia. }
  unfold binary_normalize.
  destruct (cond_Zopp s _ - cond_Zopp t _) as [|p|p]; try lia.
  apply binary_round_signed.
Qed.

End FloatFacts.

(** ** The tracker page *)

Module PageFacts.

Import JsNumber Page FloatFacts.

#[local] Arguments commit : simpl never.

Lemma spec_float_eqb_eq (a b : spec_float) : spec_float_eqb a b = true -> a = b.
Proof.
  destruct a as [s|s| |s m e], b as [t|t| |t n f]; simpl; try discriminate;
    try reflexivity.
  - intros H. apply Bool.eqb_prop in H. congruence.
  - intros H. apply Bool.eqb_prop in H. congruence.
  - rewrite !andb_true_iff. intros [[H1 H2] H3].
    apply Bool.eqb_prop in H1. apply Pos.eqb_eq in H2. apply Z.eqb_eq in H3.
    congruence.
Qed.

Lemma spec_float_eqb_refl (a : spec_float) : spec_float_eqb a a = true.
Proof.
  destruct a as [s|s| |s m e]; simpl; try reflexivity;
    rewrite ?Bool.eqb_reflx, ?Pos.eqb_refl, ?Z.eqb_refl; reflexivity.
Qed.

Lemma Object_is_eq (x y : float) : Object_is x y = true -> x = y.
Proof. intros H. apply Prim2SF_inj, spec_float_eqb_eq, H. Qed.

Lemma Object_is_refl (x : float) : Object_is x x = true.
Proof. apply spec_float_eqb_refl. Qed.

Lemma Goal_eqb_eq (a b : Goal) : Goal_eqb a b = true -> a = b.
Proof. destruct a, b; simpl; congruence. Qed.

Lemma Goal_eqb_refl (a : Goal) : Goal_eqb a a = true.
Proof. destruct a; reflexivity. Qed.

Lemma multiplier_table (g : Goal) : Page.multiplier g = Spec.multiplier g.
Proof. destruct g; reflexivity. Qed.

(** The total the effect computes. *)
Definition total_of (meals : list MealAnalysis) : float :=
  reduce (fun sum meal => (sum + totalProtein meal)%float) 0%float meals.

(** The derived fields agree with the fields they are derived from. *)
Definition derived (s : State) : Prop :=
  dailyGoal s = Math_round (weight s * Page.multiplier (goal s))%float
  /\ dailyTotal s = total_of (mealHistory s).

Lemma commit_derived (before after : State) (new_history : bool) :
  derived before ->
  dailyGoal after = dailyGoal before ->
  dailyTotal after = dailyTotal before ->
  (new_history = false -> mealHistory after = mealHistory before) ->
  derived (commit before after new_history).
Proof.
  intros [Hg Ht] Eg Et Eh. unfold commit.
  destruct (Object_is (weight before) (weight after)
            && Goal_eqb (goal before) (goal after)) eqn:Same.
  - apply andb_true_iff in Same. destruct Same as [Hw Hgoal].
    apply Object_is_eq in Hw. apply Goal_eqb_eq in Hgoal.
    destruct new_history; split; simpl; try reflexivity.
    + congruence.
    + congruence.
    + rewrite Et, Ht, Eh; reflexivity.
  - destruct new_history; split; simpl; try reflexivity.
    rewrite Et, Ht, Eh; reflexivity.
Qed.

Lemma mount_derived : derived mount.
Proof. split; vm_compute; reflexivity. Qed.

Lemma analyzeImage_derived (s : State) :
  derived s -> derived (fst (analyzeImage s)).
Proof.
  intros H. unfold analyzeImage, analyzeImage_try.
  destruct (selectedFile s) as [file|]; [destruct (JsString.eqb (apiKey s) [])|];
    simpl; apply commit_derived; auto.
Qed.

Lemma onloadend_derived (outcome : FetchOutcome) (now : jsstring) (s : State) :
  derived s -> derived (fst (onloadend outcome now s)).
Proof.
  intros H. destruct outcome as [msg|err|fs tp]; simpl; auto.
  apply commit_derived; auto. discriminate.
Qed.

Lemma handle_derived (e : Event) (w : World) :
  derived (page w) -> derived (page (handle e w)).
Proof.
  intros H. destruct e as [v|x|g|file url| |outcome now| ]; simpl.
  - apply commit_derived; auto.
  - apply commit_derived; auto.
  - apply commit_derived; auto.
  - destruct file as [f|]; simpl; auto. apply commit_derived; auto.
  - pose proof (analyzeImage_derived (page w) H) as H'.
    destruct (analyzeImage (page w)) as [s' registered]. exact H'.
  - apply onloadend_derived, H.
  - apply commit_derived; auto. discriminate.
Qed.

Lemma reachable_derived (w : World) : reachable w -> derived (page w).
Proof.
  induction 1 as [|w e Hw IH He].
  - exact mount_derived.
  - apply handle_derived, IH.
Qed.

Lemma run_reachable (events : list Event) (w w' : World) :
  reachable w -> run events w = Some w' -> reachable w'.
Proof.
  revert w. induction events as [|e rest IH]; simpl; intros w Hw Hrun.
  - congruence.
  - destruct (enabled e w) eqn:He; [|discriminate].
    apply (IH (handle e w)); auto. constructor; assumption.
Qed.

(** *** Sums *)

Lemma partial_sum_app (xs ys : list float) (n : nat) :
  (n <= List.length xs)%nat ->
  Spec.partial_sum (xs ++ ys) n = Spec.partial_sum xs n.
Proof.
  induction n as [|k IH]; simpl; intros Hn; [reflexivity|].
  rewrite IH by lia. rewrite app_nth1 by lia. reflexivity.
Qed.

Lemma sum_snoc (xs : list float) (x : float) :
  Spec.sum (xs ++ [x]) = (Spec.sum xs + x)%float.
Proof.
  unfold Spec.sum. rewrite length_app, Nat.add_1_r. simpl.
  rewrite partial_sum_app by lia.
  rewrite app_nth2 by lia. rewrite Nat.sub_diag. reflexivity.
Qed.

Lemma total_of_snoc (meals : list MealAnalysis) (m : MealAnalysis) :
  total_of (meals ++ [m]) = (total_of meals + totalProtein m)%float.
Proof. unfold total_of, reduce. rewrite fold_left_app. reflexivity. Qed.

Lemma total_of_sum (meals : list MealAnalysis) :
  total_of meals = Spec.sum (map totalProtein meals).
Proof.
  induction meals as [|m meals IH] using rev_ind.
  - reflexivity.
  - rewrite total_of_snoc, map_app. cbn [map].
    rewrite sum_snoc, IH. reflexivity.
Qed.

(** *** Whole-number weights *)

Definition goals : list Goal := [lose; maintain; gain].

(** The check of one weight: for each goal the page's computation on the
    binary64 numbers gives the exactly rounded product, a positive finite
    number. *)
Definition exact_at (kg : Z) : bool :=
  forallb
    (fun g =>
       let computed := Math_round (of_Z kg * Page.multiplier g)%float in
       PrimFloat.Leibniz.eqb computed (of_Z (Spec.round_exact kg g))
       && (0 <? computed)%float && (computed <? infinity)%float)
    goals.

Definition exact_range : bool :=
  forallb (fun n => exact_at (Z.of_nat n)) (seq 30 171).

Lemma exact_range_true : exact_range = true.
Proof. vm_compute. reflexivity. Qed.

Lemma exact_at_range (kg : Z) : 30 <= kg <= 200 -> exact_at kg = true.
Proof.
  intros H. pose proof exact_range_true as R. unfold exact_range in R.
  rewrite forallb_forall in R.
  rewrite <- (Z2Nat.id kg) by lia. apply R. apply in_seq. lia.
Qed.

Lemma Math_round_exact (kg : Z) (g : Goal) :
  30 <= kg <= 200 ->
  let computed := Math_round (of_Z kg * Page.multiplier g)%float in
  computed = of_Z (Spec.round_exact kg g)
  /\ (0 <? computed)%float = true /\ (computed <? infinity)%float = true.
Proof.
  intros H. pose proof (exact_at_range kg H) as E. unfold exact_at in E.
  rewrite forallb_forall in E.
  assert (Hg : In g goals) by (destruct g; simpl; auto).
  specialize (E g Hg). cbv zeta in E. rewrite !andb_true_iff in E.
  destruct E as [[E1 E2] E3]. apply FloatAxioms.Leibniz.eqb_spec in E1.
  cbv zeta. auto.
Qed.

(** *** Bounds *)

Lemma total_of_nonneg (meals : list MealAnalysis) :
  Forall (fun m => Spec.le 0 (totalProtein m)) meals ->
  Spec.le 0 (total_of meals).
Proof.
  unfold total_of, reduce, Spec.le.
  assert (G : forall acc : float,
             (0 <=? acc)%float = true ->
             Forall (fun m => (0 <=? totalProtein m)%float = true) meals ->
             (0 <=? fold_left (fun sum meal => (sum + totalProtein meal)%float)
                              meals acc)%float = true).
  { induction meals as [|m meals IH]; simpl; intros acc Hacc Hall; auto.
    inversion Hall as [|m' ms Hm Hrest]; subst.
    apply IH; auto.
    rewrite leb_zero_spec in *. rewrite add_spec.
    apply SF64add_nonneg; assumption. }
  intros H. apply G; auto.
Qed.

Lemma Math_min_le (x y : float) :
  is_nan (Math_min x y) = false -> (Math_min x y <=? y)%float = true.
Proof.
  unfold Math_min.
  destruct (is_nan x) eqn:Nx; [simpl; discriminate|].
  destruct (is_nan y) eqn:Ny; [simpl; discriminate|]. simpl.
  destruct (x <? y)%float eqn:Lxy; [intros _; apply ltb_leb, Lxy|].
  assert (Hyy : (y <=? y)%float = true).
  { apply leb_total; auto.
    rewrite ltb_spec. unfold SFltb. rewrite SFcompare_refl.
    destruct (sf_is_nan (Prim2SF y)); reflexivity. }
  destruct (y <? x)%float eqn:Lyx; [intros _; exact Hyy|].
  destruct (get_sign x); intros _; [|exact Hyy].
  apply leb_total; auto.
Qed.

Lemma Math_min_ge (z x y : float) :
  (z <=? x)%float = true -> (z <=? y)%float = true ->
  (z <=? Math_min x y)%float = true.
Proof.
  intros Hx Hy. unfold Math_min.
  destruct (is_nan x) eqn:Nx.
  { destruct (ltb_irrefl_nan x z Nx) as (_ & _ & _ & F). congruence. }
  destruct (is_nan y) eqn:Ny.
  { destruct (ltb_irrefl_nan y z Ny) as (_ & _ & _ & F). congruence. }
  simpl. destruct (x <? y)%float; auto. destruct (y <? x)%float; auto.
  destruct (get_sign x); auto.
Qed.

Lemma Math_max_not_below (x y : float) :
  (y <? y)%float = false -> (Math_max x y <? y)%float = false.
Proof.
  intros Hy. unfold Math_max.
  destruct (is_nan x || is_nan y) eqn:N.
  { destruct (ltb_irrefl_nan nan y eq_refl) as (F & _). exact F. }
  destruct (x <? y)%float eqn:Lxy; auto.
  destruct (y <? x)%float eqn:Lyx; auto.
  destruct (get_sign x); auto.
Qed.

Lemma Math_max_ge (x y : float) :
  is_nan x = false -> is_nan y = false -> (y <=? Math_max x y)%float = true.
Proof.
  intros Nx Ny. unfold Math_max. rewrite Nx, Ny. simpl.
  assert (Hyy : (y <=? y)%float = true).
  { apply leb_total; auto.
    rewrite ltb_spec. unfold SFltb. rewrite SFcompare_refl.
    destruct (sf_is_nan (Prim2SF y)); reflexivity. }
  destruct (x <? y)%float eqn:Lxy; auto.
  destruct (y <? x)%float eqn:Lyx; [apply ltb_leb, Lyx|].
  destruct (get_sign x); auto. apply leb_total; auto.
Qed.

Lemma Math_max_nonpos (x : float) :
  sf_nonpos (Prim2SF x) = true -> Math_max x 0 = 0%float.
Proof.
  intros H. unfold Math_max.
  assert (N : is_nan x = false).
  { rewrite is_nan_spec. destruct (Prim2SF x); simpl in *; congruence. }
  rewrite N. cbn [orb is_nan]. change (is_nan 0) with false. cbv iota.
  destruct (x <? 0)%float eqn:L; [reflexivity|].
  assert (Z : exists s, Prim2SF x = S754_zero s).
  { rewrite ltb_spec in L. change (Prim2SF 0%float) with (S754_zero false) in L.
    destruct (Prim2SF x) as [s|s| |s m e]; simpl in *; try discriminate;
      try (destruct s; discriminate).
    eexists; reflexivity. }
  destruct Z as [s Z].
  assert (G : (0 <? x)%float = false).
  { rewrite ltb_spec, Z. reflexivity. }
  rewrite G.
  destruct (get_sign x) eqn:S; [reflexivity|].
  (* a zero of positive sign is the number 0 itself *)
  apply Prim2SF_inj. rewrite Z. change (Prim2SF 0%float) with (S754_zero false).
  unfold get_sign in S.
  assert (IZ : is_zero x = true).
  { unfold is_zero. rewrite eqb_spec, Z. reflexivity. }
  rewrite IZ in S. rewrite ltb_spec, div_spec, Z in S.
  change (Prim2SF one) with (S754_finite false 4503599627370496 (-52)) in S.
  destruct s; [discriminate S|reflexivity].
Qed.

Lemma progress_in_range (total goal_ : float) :
  Spec.lt 0 goal_ -> Spec.lt goal_ infinity -> Spec.le 0 total ->
  let p := Math_min ((total / goal_) * 100)%float 100%float in
  Spec.le 0 p /\ Spec.le p 100.
Proof.
  unfold Spec.lt, Spec.le. intros G0 Ginf T0.
  assert (Gpf : sf_posfin (Prim2SF goal_) = true).
  { rewrite <- posfin_spec, G0, Ginf. reflexivity. }
  rewrite leb_zero_spec in T0.
  assert (Hq : (0 <=? (total / goal_) * 100)%float = true).
  { rewrite leb_zero_spec, mul_spec, div_spec.
    apply SF64mul_nonneg_posfin; [|reflexivity].
    apply SF64div_nonneg; assumption. }
  assert (Hp : (0 <=? Math_min ((total / goal_) * 100) 100)%float = true).
  { apply Math_min_ge; [exact Hq|reflexivity]. }
  cbv zeta. split; [exact Hp|].
  apply Math_min_le.
  rewrite is_nan_spec. rewrite leb_zero_spec in Hp.
  destruct (Prim2SF (Math_min (total / goal_ * 100) 100)); simpl in *; congruence.
Qed.

(** *** The claims on the page *)

(** C1. In every reachable state the daily goal is [Math.round] of the
    weight times the multiplier of the goal, 1.2 to lose, 1.6 to maintain
    and 2.0 to gain, whatever the weight; for a whole number of kilograms
    from 30 to 200 it is the exactly rounded product, a half rounding up;
    weight 70 with the goal maintain gives 112. Every weight and goal can
    be entered, so the statement covers them all. *)
Theorem dailyGoal_is_rounded_product :
  (forall w : World,
      reachable w ->
      dailyGoal (page w)
      = Math_round (weight (page w) * Spec.multiplier (goal (page w)))%float)
  /\ (forall (w : World) (kg : Z),
        reachable w -> 30 <= kg <= 200 -> weight (page w) = of_Z kg ->
        dailyGoal (page w) = of_Z (Spec.round_exact kg (goal (page w))))
  /\ (forall w : World,
        reachable w -> weight (page w) = 70%float -> goal (page w) = maintain ->
        dailyGoal (page w) = 112%float)
  /\ (forall (x : float) (g : Goal),
        let w := handle (GoalSelect g) (handle (WeightInput x) start) in
        reachable w /\ weight (page w) = x /\ goal (page w) = g).
Proof.
  assert (H1 : forall w : World,
             reachable w ->
             dailyGoal (page w)
             = Math_round (weight (page w) * Spec.multiplier (goal (page w)))%float).
  { intros w Hw. destruct (reachable_derived w Hw) as [Hg _].
    rewrite <- multiplier_table. exact Hg. }
  split; [exact H1|split; [|split]].
  - intros w kg Hw Hkg Hweight. rewrite (H1 w Hw), Hweight, <- multiplier_table.
    apply Math_round_exact, Hkg.
  - intros w Hw Hweight Hgoal. rewrite (H1 w Hw), Hweight, Hgoal.
    vm_compute. reflexivity.
  - intros x g w. split; [|split].
    + unfold w. repeat (apply reachable_step; [|reflexivity]).
      apply reachable_start.
    + unfold w, handle, onGoalChange, onWeightChange, commit. cbn [page].
      repeat match goal with |- context [if ?c then _ else _] => destruct c end;
        reflexivity.
    + unfold w, handle, onGoalChange, onWeightChange, commit. cbn [page].
      repeat match goal with |- context [if ?c then _ else _] => destruct c end;
        reflexivity.
Qed.

Definition photo : File :=
  {| file_name := js "lunch.png";
     file_dataURL := js "data:image/png;base64,iVBORw0KGgo=" |}.

(** A user who weighs 85 kg and wants to gain muscle. *)
Definition profile_events : list Event := [WeightInput 85%float; GoalSelect gain].

Lemma dailyGoal_is_rounded_product_witness :
  exists w : World,
    run profile_events start = Some w
    /\ dailyGoal (page w) = of_Z (Spec.round_exact 85 gain)
    /\ dailyGoal (page w) = 170%float.
Proof.
  eexists. split; [vm_compute; reflexivity|].
  split; [|vm_compute; reflexivity].
  apply (proj1 (proj2 dailyGoal_is_rounded_product)).
  - apply (run_reachable profile_events start); [constructor|].
    vm_compute; reflexivity.
  - lia.
  - vm_compute; reflexivity.
Defined.

(** A first meal of 49 g, analysed at noon. *)
Definition one_meal_events : list Event :=
  [ApiKeyInput (js "sk-test"); FileChosen (Some photo) (js "blob:preview");
   AnalyzeClick; LoadEnd (ResponseOk [] 49%float) (js "12:00")].

(** C8. [resetDay] empties the history and clears the selected file, the
    preview and the current analysis; the weight, the goal and the daily
    goal derived from them stay as they were (and so does the key). *)
Theorem resetDay_clears_meals_keeps_profile (s : State) :
  mealHistory (resetDay s) = []
  /\ selectedFile (resetDay s) = None
  /\ previewUrl (resetDay s) = []
  /\ currentAnalysis (resetDay s) = None
  /\ weight (resetDay s) = weight s
  /\ goal (resetDay s) = goal s
  /\ dailyGoal (resetDay s) = dailyGoal s
  /\ apiKey (resetDay s) = apiKey s.
Proof.
  unfold resetDay, commit. simpl.
  rewrite Object_is_refl, Goal_eqb_refl. simpl. repeat split; reflexivity.
Qed.

(** C7, which the code does not meet. When the request to the route
    fails, the callback throws inside the promise of [reader.onloadend]:
    the [catch] of [analyzeImage] has already been left, so the message is
    stored nowhere and [error] stays empty, as [analyzeImage] set it. The
    history is unchanged, as the claim says. *)
Theorem gateway_failure_is_not_surfaced
        (s : State) (file : File) (outcome : FetchOutcome) (now : jsstring) :
  selectedFile s = Some file ->
  apiKey s <> [] ->
  (forall fs tp, outcome <> ResponseOk fs tp) ->
  let submitted := fst (analyzeImage s) in
  let after := onloadend outcome now submitted in
  error (fst after) = []
  /\ mealHistory (fst after) = mealHistory s
  /\ exists uncaught : Route.JsError, snd after = Some uncaught.
Proof.
  intros Hfile Hkey Hfail submitted after.
  assert (Hsub : error submitted = [] /\ mealHistory submitted = mealHistory s).
  { unfold submitted, analyzeImage, analyzeImage_try. rewrite Hfile.
    destruct (JsString.eqb (apiKey s) []) eqn:K.
    - destruct (apiKey s); [congruence|discriminate].
    - unfold commit. simpl. rewrite Object_is_refl, Goal_eqb_refl.
      simpl. split; reflexivity. }
  destruct Hsub as [He Hh]. unfold after.
  destruct outcome as [msg|err|fs tp]; simpl.
  - repeat split; auto. eexists; reflexivity.
  - repeat split; auto. eexists; reflexivity.
  - exfalso. apply (Hfail fs tp). reflexivity.
Qed.

(** The page once a key is typed and a photo is chosen. *)
Definition ready_events : list Event :=
  [ApiKeyInput (js "sk-test"); FileChosen (Some photo) (js "blob:preview")].

Definition ready : State :=
  match run ready_events start with
  | Some w => page w
  | None => initial
  end.

Definition route_failure : FetchOutcome :=
  ResponseNotOk (Some (js "Invalid response format from OpenAI")).

Lemma gateway_failure_is_not_surfaced_witness :
  let after := onloadend route_failure (js "12:00") (fst (analyzeImage ready)) in
  error (fst after) = []
  /\ mealHistory (fst after) = mealHistory ready
  /\ exists uncaught : Route.JsError, snd after = Some uncaught.
Proof.
  apply (gateway_failure_is_not_surfaced ready photo route_failure (js "12:00")).
  - vm_compute; reflexivity.
  - vm_compute; discriminate.
  - intros fs tp; discriminate.
Defined.

(** The same submission as a run of the page: the analysis is started,
    the route answers 500, and the page shows no error. *)
Lemma failed_submission_shows_no_error :
  exists w : World,
    run (ready_events ++ [AnalyzeClick; LoadEnd route_failure (js "12:00")]) start
    = Some w
    /\ error (page w) = [] /\ mealHistory (page w) = [].
Proof. eexists. split; [vm_compute; reflexivity|]. split; reflexivity. Qed.

(** One meal of 49 g, then the weight -70 typed into the weight input. *)
Definition negative_weight_events : list Event :=
  one_meal_events ++ [WeightInput (-70)%float].

(** C4 as stated fails: a negative weight can be typed into the weight
    input, the daily goal is then negative, and with a meal in the history
    the percentage is below 0. *)
Lemma progressPercentage_below_zero :
  exists w : World,
    run negative_weight_events start = Some w
    /\ dailyGoal (page w) = (-112)%float
    /\ dailyTotal (page w) = 49%float
    /\ progressPercentage (page w) = (-43.75)%float
    /\ (0 <=? progressPercentage (page w))%float = false.
Proof.
  eexists. split; [vm_compute; reflexivity|].
  repeat split; vm_compute; reflexivity.
Qed.

(** With the weight input emptied, [Number('')] is 0: the goal is 0 and,
    before any meal, the percentage is not a number. *)
Lemma progressPercentage_not_a_number :
  exists w : World,
    run [WeightInput 0%float] start = Some w
    /\ dailyGoal (page w) = 0%float
    /\ is_nan (progressPercentage (page w)) = true.
Proof.
  eexists. split; [vm_compute; reflexivity|].
  split; vm_compute; reflexivity.
Qed.

(** C4, amended. The percentage is never above 100 when it is a number,
    however far the total exceeds the goal; it lies between 0 and 100
    whenever the daily goal is positive and finite and the daily total is
    not negative, as in every reachable state where the weight is a whole
    number of kilograms from 30 to 200 and no meal has a negative
    [totalProtein]. *)
Theorem progressPercentage_bounds :
  (forall s : State,
      is_nan (progressPercentage s) = false ->
      Spec.le (progressPercentage s) 100)
  /\ (forall s : State,
        Spec.lt 0 (dailyGoal s) -> Spec.lt (dailyGoal s) infinity ->
        Spec.le 0 (dailyTotal s) ->
        Spec.le 0 (progressPercentage s) /\ Spec.le (progressPercentage s) 100)
  /\ (forall (w : World) (kg : Z),
        reachable w -> 30 <= kg <= 200 -> weight (page w) = of_Z kg ->
        Forall (fun m => Spec.le 0 (totalProtein m)) (mealHistory (page w)) ->
        Spec.le 0 (progressPercentage (page w))
        /\ Spec.le (progressPercentage (page w)) 100).
Proof.
  split; [|split].
  - intros s. apply Math_min_le.
  - intros s. apply progress_in_range.
  - intros w kg Hw Hkg Hweight Hmeals.
    destruct (reachable_derived w Hw) as [Hg Ht].
    destruct (Math_round_exact kg (goal (page w)) Hkg) as (_ & Hpos & Hfin).
    rewrite <- Hweight, <- Hg in Hpos, Hfin.
    apply progress_in_range; auto.
    rewrite Ht. apply total_of_nonneg, Hmeals.
Qed.

(** A total far above the goal: three meals of 49 g against a goal of 112. *)
Definition three_meals_events : list Event :=
  one_meal_events
  ++ [AnalyzeClick; LoadEnd (ResponseOk [] 49%float) (js "15:00");
      AnalyzeClick; LoadEnd (ResponseOk [] 49%float) (js "20:00")].

Lemma progressPercentage_bounds_witness :
  exists w : World,
    run three_meals_events start = Some w
    /\ dailyTotal (page w) = 147%float
    /\ progressPercentage (page w) = 100%float
    /\ Spec.le 0 (progressPercentage (page w))
    /\ Spec.le (progressPercentage (page w)) 100.
Proof.
  eexists. split; [vm_compute; reflexivity|].
  split; [vm_compute; reflexivity|].
  split; [vm_compute; reflexivity|].
  apply (proj2 (proj2 progressPercentage_bounds) _ 70).
  - apply (run_reachable three_meals_events start); [constructor|].
    vm_compute; reflexivity.
  - lia.
  - vm_compute; reflexivity.
  - repeat constructor.
Defined.

(** The weight 1e308 with the goal to gain, and two meals of 1e308 g. *)
Definition overflow_events : list Event :=
  [WeightInput 1e308%float; GoalSelect gain]
  ++ ready_events
  ++ [AnalyzeClick; LoadEnd (ResponseOk [] 1e308%float) (js "12:00");
      AnalyzeClick; LoadEnd (ResponseOk [] 1e308%float) (js "15:00")].

(** C9 as stated fails where the difference is not a number: a weight so
    large that the goal overflows to Infinity, and meals whose total
    overflows too, leave [Math.max(Infinity - Infinity, 0)], which is NaN
    and so not at least 0. *)
Lemma remaining_not_a_number :
  exists w : World,
    run overflow_events start = Some w
    /\ dailyGoal (page w) = infinity
    /\ dailyTotal (page w) = infinity
    /\ is_nan (remaining (page w)) = true
    /\ (0 <=? remaining (page w))%float = false.
Proof.
  eexists. split; [vm_compute; reflexivity|].
  repeat split; vm_compute; reflexivity.
Qed.

(** C9, amended. [remaining] is [Math.max(dailyGoal - dailyTotal, 0)]; it
    is never below 0; it is at least 0 whenever the difference is a
    number; and whenever the total exceeds the goal it is 0. *)
Theorem remaining_never_negative :
  (forall s : State,
      remaining s = Math_max (dailyGoal s - dailyTotal s)%float 0%float)
  /\ (forall s : State, (remaining s <? 0)%float = false)
  /\ (forall s : State,
        is_nan (dailyGoal s - dailyTotal s)%float = false ->
        Spec.le 0 (remaining s))
  /\ (forall s : State,
        Spec.lt (dailyGoal s) (dailyTotal s) -> remaining s = 0%float).
Proof.
  split; [reflexivity|]. split; [|split].
  - intros s. apply Math_max_not_below. reflexivity.
  - intros s N. apply Math_max_ge; [exact N|reflexivity].
  - intros s L. apply Math_max_nonpos.
    rewrite sub_spec. apply SF64sub_nonpos; try apply Prim2SF_valid.
    unfold Spec.lt in L. rewrite ltb_spec in L. exact L.
Qed.

Lemma remaining_never_negative_witness :
  exists w : World,
    run three_meals_events start = Some w
    /\ Spec.lt (dailyGoal (page w)) (dailyTotal (page w))
    /\ remaining (page w) = 0%float.
Proof.
  eexists. split; [vm_compute; reflexivity|].
  split; [vm_compute; reflexivity|].
  apply (proj2 (proj2 (proj2 remaining_never_negative))).
  vm_compute; reflexivity.
Defined.

End PageFacts.

(** ** The analysis route *)

Module RouteFacts.

Import JSON RegExp Route.

(** *** The match of [json_pattern] *)

Definition any : char_class := CUnion CSpace CNonSpace.

(** What follows the star in [json_pattern]: a closing brace, then the end
    of the match. *)
Definition close_brace (s : jsstring) : option jsstring :=
  run (RClass (CUnit 125)) s Some.

Lemma any_mem (c : N) : class_mem any c = true.
Proof. simpl. apply orb_negb_r. Qed.

Lemma star_any_cons (c : N) (s : jsstring) (k : jsstring -> option jsstring) :
  star any (c :: s) k
  = match star any s k with
    | Some rest => Some rest
    | None => k (c :: s)
    end.
Proof. cbn [star]. rewrite any_mem. reflexivity. Qed.

Lemma star_without_close (s : jsstring) :
  ~ In 125%N s -> star any s close_brace = None.
Proof.
  induction s as [|c s IH]; intros Hs.
  - reflexivity.
  - rewrite star_any_cons, IH by (intros H; apply Hs; right; exact H).
    unfold close_brace. simpl.
    destruct (N.eqb_spec c 125) as [E|E]; [|reflexivity].
    exfalso. apply Hs. left. exact E.
Qed.

Lemma star_to_last_close (mid post : jsstring) :
  ~ In 125%N post ->
  star any (mid ++ 125%N :: post) close_brace = Some post.
Proof.
  intros Hpost. induction mid as [|c mid IH].
  - cbn [app]. rewrite star_any_cons, (star_without_close post Hpost).
    reflexivity.
  - cbn [app]. rewrite star_any_cons, IH. reflexivity.
Qed.

Lemma run_json_pattern (s : jsstring) :
  run json_pattern s Some
  = match s with
    | c :: s' => if N.eqb c 123 then star any s' close_brace else None
    | [] => None
    end.
Proof. destruct s; reflexivity. Qed.

Lemma match_here_span (mid post : jsstring) :
  ~ In 125%N post ->
  match_here json_pattern (123%N :: mid ++ 125%N :: post)
  = Some (123%N :: mid ++ [125%N]).
Proof.
  intros Hpost. unfold match_here. rewrite run_json_pattern.
  cbn [N.eqb Pos.eqb]. rewrite (star_to_last_close mid post Hpost).
  f_equal.
  replace (123%N :: mid ++ 125%N :: post)
    with ((123%N :: mid ++ [125%N]) ++ post)
    by (cbn [app]; rewrite <- app_assoc; reflexivity).
  rewrite length_app, Nat.add_sub, firstn_app, Nat.sub_diag, firstn_all.
  cbn [firstn]. apply app_nil_r.
Qed.

Lemma match_here_other (c : N) (s : jsstring) :
  c <> 123%N -> match_here json_pattern (c :: s) = None.
Proof.
  intros Hc. unfold match_here. rewrite run_json_pattern.
  destruct (N.eqb_spec c 123); [contradiction|reflexivity].
Qed.

Lemma String_match_cons (c : N) (s : jsstring) (r : regex) :
  String_match (c :: s) r
  = match match_here r (c :: s) with
    | Some m => Some m
    | None => String_match s r
    end.
Proof. reflexivity. Qed.

Lemma String_match_span (pre mid post : jsstring) :
  ~ In 123%N pre -> ~ In 125%N post ->
  String_match (pre ++ 123%N :: mid ++ 125%N :: post) json_pattern
  = Some (123%N :: mid ++ [125%N]).
Proof.
  intros Hpre Hpost. induction pre as [|c pre IH].
  - cbn [app]. rewrite String_match_cons, (match_here_span mid post Hpost).
    reflexivity.
  - cbn [app]. rewrite String_match_cons, match_here_other.
    + apply IH. intros H. apply Hpre. right. exact H.
    + intros E. apply Hpre. left. exact E.
Qed.

Lemma brace_delimited_tail (c : N) (s : jsstring) :
  Spec.brace_delimited s -> Spec.brace_delimited (c :: s).
Proof.
  intros (a & b & d & E). exists (c :: a), b, d. rewrite E. reflexivity.
Qed.

Lemma String_match_none (text : jsstring) :
  ~ Spec.brace_delimited text -> String_match text json_pattern = None.
Proof.
  induction text as [|c text IH]; intros H.
  - reflexivity.
  - rewrite String_match_cons.
    assert (Hhere : match_here json_pattern (c :: text) = None).
    { destruct (N.eqb_spec c 123) as [E|E]; [|apply match_here_other, E].
      subst c. unfold match_here. rewrite run_json_pattern. cbn [N.eqb Pos.eqb].
      rewrite star_without_close; [reflexivity|].
      intros Hin. apply H. apply in_split in Hin. destruct Hin as (b & d & E).
      exists [], b, d. rewrite E. reflexivity. }
    rewrite Hhere. apply IH. intros Hd. apply H, brace_delimited_tail, Hd.
Qed.

Lemma split_last (c : N) (s : jsstring) :
  In c s -> exists mid post, s = mid ++ c :: post /\ ~ In c post.
Proof.
  induction s as [|x s IH]; intros Hin; [contradiction|].
  destruct (in_dec N.eq_dec c s) as [Hs|Hs].
  - destruct (IH Hs) as (mid & post & E & Hpost).
    exists (x :: mid), post. rewrite E. auto.
  - destruct Hin as [E|Hin]; [|contradiction].
    subst x. exists [], s. auto.
Qed.

(** A text with a brace-delimited substring splits at its first opening
    brace and its last closing brace, the first before the last. *)
Lemma first_open_last_close (text : jsstring) :
  Spec.brace_delimited text ->
  exists pre mid post,
    text = pre ++ 123%N :: mid ++ 125%N :: post
    /\ ~ In 123%N pre /\ ~ In 125%N post.
Proof.
  intros (a & b & d & E). subst text. induction a as [|x a IH].
  - destruct (split_last 125%N (b ++ 125%N :: d)) as (mid & post & E & Hpost).
    { apply in_or_app. right. left. reflexivity. }
    exists [], mid, post. cbn [app]. rewrite E. auto.
  - destruct IH as (pre & mid & post & E & Hpre & Hpost).
    destruct (N.eq_dec x 123) as [Hx|Hx].
    + subst x. exists [], (pre ++ 123%N :: mid), post.
      cbn [app]. rewrite E. rewrite <- app_assoc. cbn [app]. auto.
    + exists (x :: pre), mid, post. cbn [app]. rewrite E.
      split; [reflexivity|]. split; [|exact Hpost].
      intros [F|F]; [congruence|contradiction].
Qed.

(** *** The handler *)

Definition server_error (msg : jsstring) : Response :=
  {| status := 500; body := error_body msg |}.

Definition bad_request (msg : jsstring) : Response :=
  {| status := 400; body := error_body msg |}.

(** What the handler answers to a reply of the model. *)
Definition answer (host : Host) (text : jsstring) : Response :=
  match text with
  | [] => server_error (js "No response from OpenAI")
  | _ =>
      match String_match text json_pattern with
      | None => server_error (js "Invalid response format from OpenAI")
      | Some m =>
          match parse m with
          | Some result => {| status := 200; body := result |}
          | None =>
              server_error
                (or_else (syntax_error_message host m)
                         (js "Failed to analyze image"))
          end
      end
  end.

(** A request that passes both checks of the handler. *)
Definition accepted (request_body : jsstring) (apiKey image : value) : Prop :=
  exists v : value,
    parse request_body = Some v
    /\ property v (js "apiKey") = Some apiKey /\ truthy (Some apiKey) = true
    /\ property v (js "image") = Some image /\ truthy (Some image) = true.

Lemma POST_accepted (host : Host) (request_body : jsstring)
      (apiKey image : value) (text : jsstring) :
  accepted request_body apiKey image ->
  chat_completions_create host (chat_request apiKey image)
  = Normal (Some text) ->
  POST host request_body = (answer host text, [chat_request apiKey image]).
Proof.
  intros (v & Hparse & Hkey & Tkey & Himage & Timage) Hreply.
  unfold POST, try_catch, POST_try, request_json, JSON_parse, bind.
  rewrite Hparse. unfold ret at 1.
  destruct v as [ | | | | |members]; try discriminate.
  unfold destructure, ret at 1. rewrite Hkey, Himage, Tkey, Timage.
  cbn [negb or_undefined]. unfold create. rewrite Hreply.
  unfold answer. destruct text as [|c text]; [reflexivity|].
  destruct (String_match (c :: text) json_pattern) as [m|]; [|reflexivity].
  destruct (parse m); reflexivity.
Qed.

Lemma POST_without_key (host : Host) (request_body : jsstring) (v : value) :
  parse request_body = Some v -> v <> JNull ->
  truthy (property v (js "apiKey")) = false ->
  POST host request_body = (bad_request (js "OpenAI API key is required"), []).
Proof.
  intros Hparse Hv Hkey.
  unfold POST, try_catch, POST_try, request_json, JSON_parse, bind.
  rewrite Hparse. unfold ret at 1.
  destruct v; try congruence; unfold destructure, ret at 1;
    rewrite Hkey; reflexivity.
Qed.

Lemma POST_without_image (host : Host) (request_body : jsstring) (v : value) :
  parse request_body = Some v -> v <> JNull ->
  truthy (property v (js "apiKey")) = true ->
  truthy (property v (js "image")) = false ->
  POST host request_body = (bad_request (js "Image is required"), []).
Proof.
  intros Hparse Hv Hkey Himage.
  unfold POST, try_catch, POST_try, request_json, JSON_parse, bind.
  rewrite Hparse. unfold ret at 1.
  destruct v; try congruence; unfold destructure, ret at 1;
    rewrite Hkey, Himage; reflexivity.
Qed.

(** *** The claims on the route *)

Definition egg_reply : jsstring := jsq
  "Sure! {'foods':[{'name':'Egg','quantity':'50g','protein':6}],'totalProtein':6} Enjoy!".

Definition egg_json : jsstring := jsq
  "{'foods':[{'name':'Egg','quantity':'50g','protein':6}],'totalProtein':6}".

Definition egg_object : value :=
  JObject
    [(js "foods",
      JArray
        [JObject [(js "name", JString (js "Egg"));
                  (js "quantity", JString (js "50g"));
                  (js "protein", JNumber 6%float)]]);
     (js "totalProtein", JNumber 6%float)].

(** C2. When the model replies with the text of the claim, the pattern
    extracts the JSON object without the prose around it, [JSON.parse]
    gives the object of the claim, and the handler answers with it (status
    200) after one request to the model. *)
Theorem POST_discards_prose_around_json
        (host : Host) (request_body : jsstring) (apiKey image : value) :
  accepted request_body apiKey image ->
  chat_completions_create host (chat_request apiKey image)
  = Normal (Some egg_reply) ->
  String_match egg_reply json_pattern = Some egg_json
  /\ parse egg_json = Some egg_object
  /\ POST host request_body
     = ({| status := 200; body := egg_object |}, [chat_request apiKey image]).
Proof.
  intros Hreq Hreply.
  assert (Hm : String_match egg_reply json_pattern = Some egg_json)
    by (vm_compute; reflexivity).
  assert (Hp : parse egg_json = Some egg_object) by (vm_compute; reflexivity).
  split; [exact Hm|]. split; [exact Hp|].
  rewrite (POST_accepted host request_body apiKey image egg_reply Hreq Hreply).
  unfold answer. change egg_reply with (83%N :: tl egg_reply) at 1.
  cbv iota. change (83%N :: tl egg_reply) with egg_reply.
  rewrite Hm, Hp. reflexivity.
Qed.

(** A host whose model always gives the same reply. *)
Definition host_replying (reply : completion (option jsstring)) : Host :=
  {| syntax_error_message := fun _ => js "Unexpected token in JSON";
     destructure_error_message :=
       js "Cannot destructure property 'image' of null";
     chat_completions_create := fun _ => reply |}.

Definition photo_request : jsstring := jsq
  "{'image':'data:image/png;base64,iVBORw0KGgo=','apiKey':'sk-test'}".

Lemma photo_request_accepted :
  accepted photo_request (JString (js "sk-test"))
           (JString (js "data:image/png;base64,iVBORw0KGgo=")).
Proof.
  eexists. split; [vm_compute; reflexivity|].
  repeat split; vm_compute; reflexivity.
Qed.

Lemma POST_discards_prose_around_json_witness :
  POST (host_replying (Normal (Some egg_reply))) photo_request
  = ({| status := 200; body := egg_object |},
     [chat_request (JString (js "sk-test"))
                   (JString (js "data:image/png;base64,iVBORw0KGgo="))]).
Proof.
  apply (POST_discards_prose_around_json
           (host_replying (Normal (Some egg_reply))) photo_request
           _ _ photo_request_accepted eq_refl).
Defined.

(** C5 as stated fails: the key is checked first, so a request with
    neither field is answered with the message about the key, which does
    not mention the image. *)
Lemma missing_image_and_key_mentions_only_the_key :
  parse (js "{}") = Some (JObject [])
  /\ property (JObject []) (js "image") = None
  /\ POST (host_replying (Normal None)) (js "{}")
     = (bad_request (js "OpenAI API key is required"), [])
  /\ mentions (js "OpenAI API key is required") (js "image") = false.
Proof. repeat split; vm_compute; reflexivity. Qed.

(** C5, amended. For a request whose body is JSON other than null: when
    the key is absent, or present but falsy (the empty string, 0, false or
    null), the answer is 400 with the message about the key, whether the
    image is there or not; when the key is truthy and the image is absent,
    the answer is 400 with the message about the image; in both cases
    nothing is sent to the model. *)
Theorem POST_rejects_missing_fields
        (host : Host) (request_body : jsstring) (v : value) :
  parse request_body = Some v -> v <> JNull ->
  (property v (js "apiKey") = None ->
   POST host request_body
   = ({| status := 400; body := error_body (js "OpenAI API key is required") |},
      []))
  /\ (truthy (property v (js "apiKey")) = false ->
      POST host request_body
      = ({| status := 400;
            body := error_body (js "OpenAI API key is required") |}, []))
  /\ (truthy (property v (js "apiKey")) = true ->
      property v (js "image") = None ->
      POST host request_body
      = ({| status := 400; body := error_body (js "Image is required") |}, []))
  /\ truthy (Some (JString [])) = false
  /\ truthy (Some (JNumber 0%float)) = false
  /\ truthy (Some (JBool false)) = false
  /\ truthy (Some JNull) = false
  /\ mentions (js "OpenAI API key is required") (js "key") = true
  /\ mentions (js "Image is required") (js "image") = true.
Proof.
  intros Hparse Hv.
  split; [|split; [|split; [|repeat split; vm_compute; reflexivity]]].
  - intros Hkey. apply (POST_without_key host request_body v); auto.
    rewrite Hkey. reflexivity.
  - intros Hkey. apply (POST_without_key host request_body v); auto.
  - intros Hkey Himage. apply (POST_without_image host request_body v); auto.
    rewrite Himage. reflexivity.
Qed.

Lemma POST_rejects_missing_fields_witness :
  POST (host_replying (Normal None)) (jsq "{'image':'data:image/png;base64,AA=='}")
  = ({| status := 400; body := error_body (js "OpenAI API key is required") |},
     [])
  /\ POST (host_replying (Normal None))
          (jsq "{'apiKey':'','image':'data:image/png;base64,AA=='}")
     = ({| status := 400;
           body := error_body (js "OpenAI API key is required") |}, [])
  /\ POST (host_replying (Normal None)) (jsq "{'apiKey':'sk-test'}")
     = ({| status := 400; body := error_body (js "Image is required") |}, []).
Proof.
  split; [|split].
  - apply (proj1 (POST_rejects_missing_fields
                    (host_replying (Normal None))
                    (jsq "{'image':'data:image/png;base64,AA=='}")
                    (JObject [(js "image", JString (js "data:image/png;base64,AA=="))])
                    ltac:(vm_compute; reflexivity) ltac:(discriminate))).
    vm_compute; reflexivity.
  - apply (proj1 (proj2 (POST_rejects_missing_fields
                    (host_replying (Normal None))
                    (jsq "{'apiKey':'','image':'data:image/png;base64,AA=='}")
                    (JObject [(js "apiKey", JString []);
                              (js "image", JString (js "data:image/png;base64,AA=="))])
                    ltac:(vm_compute; reflexivity) ltac:(discriminate)))).
    vm_compute; reflexivity.
  - apply (proj1 (proj2 (proj2 (POST_rejects_missing_fields
                    (host_replying (Normal None))
                    (jsq "{'apiKey':'sk-test'}")
                    (JObject [(js "apiKey", JString (js "sk-test"))])
                    ltac:(vm_compute; reflexivity) ltac:(discriminate))))).
    + vm_compute; reflexivity.
    + vm_compute; reflexivity.
Defined.






(** A reply whose braces do not hold JSON is answered in the same way. *)
Lemma POST_invalid_json_is_server_error :
  POST (host_replying (Normal (Some (js "{no json}")))) photo_request
  = ({| status := 500; body := error_body (js "Unexpected token in JSON") |},
     [chat_request (JString (js "sk-test"))
                   (JString (js "data:image/png;base64,iVBORw0KGgo="))]).
Proof. vm_compute. reflexivity. Qed.

(** C10 as stated fails: a reply can hold both braces and have no match,
    when every closing brace comes before the first opening one. *)
Lemma braces_in_the_wrong_order_match_nothing :
  In 123%N (js "}{") /\ In 125%N (js "}{")
  /\ String_match (js "}{") json_pattern = None
  /\ fst (POST (host_replying (Normal (Some (js "}{")))) photo_request)
     = {| status := 500;
          body := error_body (js "Invalid response format from OpenAI") |}.
Proof.
  split; [right; left; reflexivity|]. split; [left; reflexivity|].
  split; vm_compute; reflexivity.
Qed.

(** C10, amended. When an opening brace of the reply is followed by a
    closing one, the substring that is extracted and given to [JSON.parse]
    runs from the first opening brace of the reply to its last closing
    brace: no opening brace stands before it, no closing brace after it,
    and the answer of the handler is the outcome of parsing it. *)
Theorem POST_parses_first_open_to_last_close
        (host : Host) (request_body : jsstring) (apiKey image : value)
        (text : jsstring) :
  accepted request_body apiKey image ->
  chat_completions_create host (chat_request apiKey image)
  = Normal (Some text) ->
  Spec.brace_delimited text ->
  exists pre mid post : jsstring,
    text = pre ++ 123%N :: mid ++ 125%N :: post
    /\ ~ In 123%N pre /\ ~ In 125%N post
    /\ String_match text json_pattern = Some (123%N :: mid ++ [125%N])
    /\ POST host request_body
       = (match parse (123%N :: mid ++ [125%N]) with
          | Some result => {| status := 200; body := result |}
          | None =>
              {| status := 500;
                 body := error_body
                           (or_else
                              (syntax_error_message host (123%N :: mid ++ [125%N]))
                              (js "Failed to analyze image")) |}
          end,
          [chat_request apiKey image]).
Proof.
  intros Hreq Hreply Hbraces.
  destruct (first_open_last_close text Hbraces)
    as (pre & mid & post & E & Hpre & Hpost).
  exists pre, mid, post.
  assert (Hm : String_match text json_pattern = Some (123%N :: mid ++ [125%N]))
    by (rewrite E; apply String_match_span; assumption).
  repeat (split; [assumption|]).
  rewrite (POST_accepted host request_body apiKey image text Hreq Hreply).
  unfold answer. destruct text as [|c text].
  - destruct pre; discriminate.
  - rewrite Hm. reflexivity.
Qed.

(** A reply with a stray closing brace in the prose after the object. *)
Definition trailing_brace_reply : jsstring :=
  jsq "Here you go: {'foods':[],'totalProtein':0} Enjoy :-}".

Lemma trailing_brace_reply_has_braces :
  Spec.brace_delimited trailing_brace_reply.
Proof.
  exists (js "Here you go: "), (jsq "'foods':[],'totalProtein':0"),
         (js " Enjoy :-}").
  vm_compute. reflexivity.
Qed.

Lemma POST_parses_first_open_to_last_close_witness :
  exists pre mid post : jsstring,
    trailing_brace_reply = pre ++ 123%N :: mid ++ 125%N :: post
    /\ ~ In 123%N pre /\ ~ In 125%N post
    /\ String_match trailing_brace_reply json_pattern
       = Some (123%N :: mid ++ [125%N])
    /\ POST (host_replying (Normal (Some trailing_brace_reply))) photo_request
       = (match parse (123%N :: mid ++ [125%N]) with
          | Some result => {| status := 200; body := result |}
          | None =>
              {| status := 500;
                 body := error_body
                           (or_else (js "Unexpected token in JSON")
                                    (js "Failed to analyze image")) |}
          end,
          [chat_request (JString (js "sk-test"))
                        (JString (js "data:image/png;base64,iVBORw0KGgo="))]).
Proof.
  apply (POST_parses_first_open_to_last_close
           (host_replying (Normal (Some trailing_brace_reply))) photo_request
           _ _ trailing_brace_reply photo_request_accepted eq_refl
           trailing_brace_reply_has_braces).
Defined.

(** The stray brace is part of what is parsed: the object alone would
    parse, the extracted span does not, and the handler answers 500. *)
Lemma trailing_brace_is_parsed :
  String_match trailing_brace_reply json_pattern
  = Some (jsq "{'foods':[],'totalProtein':0} Enjoy :-}")
  /\ parse (jsq "{'foods':[],'totalProtein':0}")
     = Some (JObject [(js "foods", JArray []);
                      (js "totalProtein", JNumber 0%float)])
  /\ parse (jsq "{'foods':[],'totalProtein':0} Enjoy :-}") = None
  /\ fst (POST (host_replying (Normal (Some trailing_brace_reply)))
               photo_request)
     = {| status := 500; body := error_body (js "Unexpected token in JSON") |}.
Proof. repeat split; vm_compute; reflexivity. Qed.

End RouteFacts.

(** ** The daily total *)

Module PayloadFacts.

Import JsNumber JSON Route Page JsValue PageFacts RouteFacts.

(** Numbers added in order, from a first one. *)
Definition added (xs : list float) (from : float) : float :=
  fold_left (fun sum x => (sum + x)%float) xs from.

Lemma added_sum (xs : list float) : added xs 0%float = Spec.sum xs.
Proof.
  unfold added. induction xs as [|x xs IH] using rev_ind.
  - reflexivity.
  - rewrite fold_left_app, sum_snoc, <- IH. reflexivity.
Qed.

(** On meals whose [totalProtein] are numbers the reducer of the effect
    adds them as numbers. *)
Lemma reduce_numbers (history : list Payload.Meal) (xs : list float)
      (from : float) :
  map Payload.totalProtein history = map (fun x => Some (JNumber x)) xs ->
  Page.reduce
    (fun sum meal =>
       match sum with
       | Some s => Payload.plus s meal
       | None => None
       end)
    (Some (PNumber from)) history
  = Some (PNumber (added xs from)).
Proof.
  unfold Page.reduce. revert xs from.
  induction history as [|meal history IH]; intros [|x xs] from E;
    try discriminate; [reflexivity|].
  cbn [map] in E. injection E as Em Eh.
  assert (P : Payload.plus (PNumber from) meal = Some (PNumber (from + x)%float))
    by (unfold Payload.plus; rewrite Em; reflexivity).
  cbn [fold_left added]. rewrite P. apply IH, Eh.
Qed.

Lemma total_numbers (history : list Payload.Meal) (xs : list float) :
  map Payload.totalProtein history = map (fun x => Some (JNumber x)) xs ->
  Payload.total history = Some (PNumber (Spec.sum xs)).
Proof.
  intros E. unfold Payload.total.
  rewrite (reduce_numbers history xs 0%float E), added_sum. reflexivity.
Qed.

(** C3 as stated fails: nothing makes the [totalProtein] of a reply a
    number. The route relays a reply in which it is the text '49', the page
    stores it, and the effect, which adds with [+], makes the daily total
    the text '049'; a second meal of the kind makes it '04949'. The same
    meal with the number 49 gives 49. *)
Lemma dailyTotal_joins_text_totals :
  POST (host_replying (Normal (Some (jsq "{'foods':[],'totalProtein':'49'}"))))
       photo_request
  = ({| status := 200;
        body := JObject [(js "foods", JArray []);
                         (js "totalProtein", JString (js "49"))] |},
     [chat_request (JString (js "sk-test"))
                   (JString (js "data:image/png;base64,iVBORw0KGgo="))])
  /\ Payload.analysis
       (JObject [(js "foods", JArray []);
                 (js "totalProtein", JString (js "49"))])
       (js "12:00")
     = Some {| Payload.foods := Some (JArray []);
               Payload.totalProtein := Some (JString (js "49"));
               Payload.timestamp := js "12:00" |}
  /\ Payload.total
       [{| Payload.foods := Some (JArray []);
           Payload.totalProtein := Some (JString (js "49"));
           Payload.timestamp := js "12:00" |}]
     = Some (PString (js "049"))
  /\ Payload.total
       [{| Payload.foods := Some (JArray []);
           Payload.totalProtein := Some (JString (js "49"));
           Payload.timestamp := js "12:00" |};
        {| Payload.foods := Some (JArray []);
           Payload.totalProtein := Some (JString (js "49"));
           Payload.timestamp := js "15:00" |}]
     = Some (PString (js "04949"))
  /\ Payload.total
       [{| Payload.foods := Some (JArray []);
           Payload.totalProtein := Some (JNumber 49%float);
           Payload.timestamp := js "12:00" |}]
     = Some (PNumber 49%float).
Proof. repeat split; vm_compute; reflexivity. Qed.

(** C3, amended. When the [totalProtein] of every meal of the history is a
    number, the value that the effect computes for the daily total is the
    sum of these numbers, added in order. The page of module [Page], whose
    meals have the declared types, is that case: its effect computes the
    same value, in every reachable state the daily total is the sum, in
    order, of the [totalProtein] of the meals of the history, a completed
    analysis appends its meal and adds its value to the total, and after
    [resetDay] the history is empty and the total is 0. *)
Theorem dailyTotal_is_sum_of_numbers :
  (forall (history : list Payload.Meal) (xs : list float),
      map Payload.totalProtein history = map (fun x => Some (JNumber x)) xs ->
      Payload.total history = Some (PNumber (Spec.sum xs)))
  /\ (forall s : State,
        Payload.total (map Payload.of_MealAnalysis (mealHistory s))
        = Some (PNumber (dailyTotal (dailyTotal_effect s))))
  /\ (forall w : World,
        reachable w ->
        dailyTotal (page w) = Spec.sum (map totalProtein (mealHistory (page w))))
  /\ (forall (w : World) (fs : list FoodItem) (tp : float) (now : jsstring),
        reachable w ->
        let s := page w in
        let meal := {| foods := fs; totalProtein := tp; timestamp := now |} in
        let s' := fst (onloadend (ResponseOk fs tp) now s) in
        mealHistory s' = mealHistory s ++ [meal]
        /\ dailyTotal s' = Spec.sum (map totalProtein (mealHistory s ++ [meal]))
        /\ dailyTotal s' = (dailyTotal s + tp)%float)
  /\ (forall s : State,
        mealHistory (resetDay s) = [] /\ dailyTotal (resetDay s) = 0%float).
Proof.
  split; [exact total_numbers|]. split; [|split; [|split]].
  - intros s.
    rewrite (total_numbers (map Payload.of_MealAnalysis (mealHistory s))
                           (map totalProtein (mealHistory s))).
    + rewrite <- total_of_sum. reflexivity.
    + rewrite !map_map. reflexivity.
  - intros w Hw. destruct (reachable_derived w Hw) as [_ Ht].
    rewrite Ht. apply total_of_sum.
  - intros w fs tp now Hw s meal s'.
    destruct (reachable_derived w Hw) as [_ Ht]. fold s in Ht.
    assert (E : mealHistory s' = mealHistory s ++ [meal]).
    { unfold s', onloadend, commit. simpl.
      destruct (_ && _); reflexivity. }
    assert (T : dailyTotal s' = total_of (mealHistory s ++ [meal])).
    { unfold s', onloadend, commit. simpl.
      destruct (_ && _); reflexivity. }
    split; [exact E|]. split.
    + rewrite T. apply total_of_sum.
    + rewrite T, total_of_snoc, Ht. reflexivity.
  - intros s. unfold resetDay, commit. simpl.
    destruct (_ && _); split; reflexivity.
Qed.

(** Two meals of a day, of 49 g and of 30.5 g. *)
Definition two_meals_events : list Event :=
  one_meal_events
  ++ [AnalyzeClick; LoadEnd (ResponseOk [] 30.5%float) (js "15:00")].

Lemma dailyTotal_is_sum_of_numbers_witness :
  Payload.total
    [{| Payload.foods := Some (JArray []);
        Payload.totalProtein := Some (JNumber 49%float);
        Payload.timestamp := js "12:00" |};
     {| Payload.foods := Some (JArray []);
        Payload.totalProtein := Some (JNumber 30.5%float);
        Payload.timestamp := js "15:00" |}]
  = Some (PNumber 79.5%float)
  /\ exists w : World,
       run two_meals_events start = Some w
       /\ map totalProtein (mealHistory (page w)) = [49%float; 30.5%float]
       /\ dailyTotal (page w)
          = Spec.sum (map totalProtein (mealHistory (page w)))
       /\ dailyTotal (page w) = 79.5%float.
Proof.
  split.
  - apply (proj1 dailyTotal_is_sum_of_numbers _ [49%float; 30.5%float]).
    reflexivity.
  - eexists. split; [vm_compute; reflexivity|].
    split; [vm_compute; reflexivity|].
    split; [|vm_compute; reflexivity].
    apply (proj1 (proj2 (proj2 dailyTotal_is_sum_of_numbers))).
    apply (run_reachable two_meals_events start); [constructor|].
    vm_compute; reflexivity.
Defined.

End PayloadFacts.

(* ================================================================== *)
(** * Part III: further properties of the route and of the page *)
(* ================================================================== *)

(** ** More on the analysis route *)

Module RouteMore.

Import JSON RegExp Route RouteFacts.

(** *** What the pattern extracts *)

Lemma star_none_without_close (s : jsstring) :
  star any s close_brace = None -> ~ In 125%N s.
Proof.
  intros Hnone Hin. destruct (split_last 125%N s Hin) as (mid & post & E & Hpost).
  rewrite E, (star_to_last_close mid post Hpost) in Hnone. discriminate.
Qed.

Lemma star_some_last_close (s rest : jsstring) :
  star any s close_brace = Some rest ->
  exists mid, s = mid ++ 125%N :: rest /\ ~ In 125%N rest.
Proof.
  revert rest. induction s as [|c s IH]; intros rest H.
  - discriminate.
  - rewrite star_any_cons in H.
    destruct (star any s close_brace) as [r|] eqn:Hs.
    + injection H as ->. destruct (IH rest eq_refl) as (mid & E & Hrest).
      exists (c :: mid). rewrite E. auto.
    + unfold close_brace in H. cbn [run class_mem] in H.
      destruct (N.eqb_spec c 125) as [->|]; [|discriminate].
      injection H as ->. exists []. split; [reflexivity|].
      apply star_none_without_close, Hs.
Qed.

Lemma match_here_shape (s m : jsstring) :
  match_here json_pattern s = Some m ->
  exists mid post,
    s = m ++ post /\ m = 123%N :: mid ++ [125%N] /\ ~ In 125%N post.
Proof.
  intros H. destruct s as [|c s]; [discriminate|].
  destruct (N.eq_dec c 123) as [->|Hc];
    [|rewrite (match_here_other c s Hc) in H; discriminate].
  assert (R := run_json_pattern (123%N :: s)). cbn [N.eqb Pos.eqb] in R.
  destruct (star any s close_brace) as [rest|] eqn:Hs.
  - destruct (star_some_last_close s rest Hs) as (mid & E & Hrest).
    subst s. rewrite (match_here_span mid rest Hrest) in H. injection H as <-.
    exists mid, rest. split; [|auto].
    cbn [app]. rewrite <- app_assoc. reflexivity.
  - unfold match_here in H. rewrite R in H. discriminate.
Qed.

(** X1. What the pattern extracts is a part of the reply that begins with
    the first opening brace of the reply and ends with its last closing
    brace; and it extracts nothing exactly when no opening brace is
    followed by a closing one. *)
Theorem String_match_json_pattern_shape (text : jsstring) :
  (forall m : jsstring,
      String_match text json_pattern = Some m ->
      exists pre mid post : jsstring,
        text = pre ++ m ++ post /\ m = 123%N :: mid ++ [125%N]
        /\ ~ In 123%N pre /\ ~ In 125%N post)
  /\ (String_match text json_pattern = None <-> ~ Spec.brace_delimited text).
Proof.
  split.
  - induction text as [|c text IH]; intros m H; [discriminate|].
    rewrite String_match_cons in H.
    destruct (match_here json_pattern (c :: text)) as [m'|] eqn:Hhere.
    + injection H as ->.
      destruct (match_here_shape _ _ Hhere) as (mid & post & E & Em & Hpost).
      exists [], mid, post. cbn [app]. auto.
    + destruct (IH m H) as (pre & mid & post & E & Em & Hpre & Hpost).
      exists (c :: pre), mid, post. cbn [app]. rewrite E.
      split; [reflexivity|]. split; [exact Em|]. split; [|exact Hpost].
      intros [->|Hin]; [|contradiction].
      (* an opening brace here with no match: no closing brace follows *)
      unfold match_here in Hhere. rewrite run_json_pattern in Hhere.
      cbn [N.eqb Pos.eqb] in Hhere.
      destruct (star any text close_brace) eqn:Hs; [discriminate|].
      apply (star_none_without_close text Hs).
      rewrite E, Em. apply in_or_app. right. right.
      apply in_or_app. left. apply in_or_app. right. left. reflexivity.
  - split.
    + intros Hnone Hbraces.
      destruct (first_open_last_close text Hbraces)
        as (pre & mid & post & E & Hpre & Hpost).
      rewrite E, (String_match_span pre mid post Hpre Hpost) in Hnone.
      discriminate.
    + apply String_match_none.
Qed.

Lemma String_match_json_pattern_shape_witness :
  exists pre mid post : jsstring,
    trailing_brace_reply
    = pre ++ jsq "{'foods':[],'totalProtein':0} Enjoy :-}" ++ post
    /\ jsq "{'foods':[],'totalProtein':0} Enjoy :-}" = 123%N :: mid ++ [125%N]
    /\ ~ In 123%N pre /\ ~ In 125%N post.
Proof.
  apply (proj1 (String_match_json_pattern_shape trailing_brace_reply)).
  vm_compute. reflexivity.
Defined.

(** *** [JSON.parse] on a text that begins with an opening brace *)

Definition is_object (v : value) : bool :=
  match v with
  | JObject _ => true
  | _ => false
  end.

(** The outermost open container of a stack is an object. *)
Fixpoint root_object (stack : list frame) : bool :=
  match stack with
  | [] => false
  | [FObject _ _] => true
  | [FArray _] => false
  | _ :: rest => root_object rest
  end.

(** The parser is inside an outermost object, or has just closed one. *)
Definition in_object (st : parse_state) : bool :=
  match st with
  | SValue stack | SArrayOpen stack => root_object stack
  | SObjectOpen stack | SKey _ stack | SColon _ _ stack =>
      match stack with
      | [] => true
      | _ => root_object stack
      end
  | SAfter v [] => is_object v
  | SAfter _ stack => root_object stack
  end.

Lemma root_object_push (f : frame) (stack : list frame) :
  root_object stack = true -> root_object (f :: stack) = true.
Proof. destruct stack; [discriminate|]. intros H. destruct f; exact H. Qed.

Lemma root_object_pop (f : frame) (stack : list frame) :
  root_object (f :: stack) = true -> stack <> [] -> root_object stack = true.
Proof. destruct stack; [congruence|]. destruct f; auto. Qed.

Lemma value_start_in_object (t : token) (stack : list frame) (st : parse_state) :
  root_object stack = true -> value_start t stack = Some st ->
  in_object st = true.
Proof.
  intros R H. destruct stack as [|f stack]; [discriminate|].
  destruct t; simpl in H; try discriminate; injection H as <-; exact R.
Qed.

Lemma parse_step_in_object (st st' : parse_state) (t : token) :
  in_object st = true -> parse_step st t = Some st' -> in_object st' = true.
Proof.
  intros G H. destruct st as [stack|stack|stack|ms stack|ms k stack|v stack].
  - apply (value_start_in_object t stack); assumption.
  - simpl in G. destruct stack as [|f stack]; [discriminate|].
    destruct t; simpl in H; try discriminate;
      try (injection H as <-; first [exact G | apply root_object_push, G]).
  - destruct t; simpl in H; try discriminate; injection H as <-;
      destruct stack; auto.
  - destruct t; simpl in H; try discriminate; injection H as <-; exact G.
  - destruct t; simpl in H; try discriminate; injection H as <-.
    simpl in G. destruct stack as [|f stack]; [reflexivity|].
    apply root_object_push, G.
  - destruct stack as [|[es|ms k] stack]; [discriminate| |].
    + assert (Hs : stack <> []) by (intros ->; discriminate G).
      assert (R : root_object stack = true)
        by (apply (root_object_pop (FArray es)); assumption).
      destruct t; simpl in H; try discriminate; injection H as <-.
      * destruct stack; [congruence|exact R].
      * apply root_object_push, R.
    + destruct t; simpl in H; try discriminate; injection H as <-.
      * destruct stack as [|f stack]; [reflexivity|].
        apply (root_object_pop (FObject ms k)); [exact G|discriminate].
      * destruct stack as [|f stack]; [reflexivity|].
        apply (root_object_pop (FObject ms k)); [exact G|discriminate].
Qed.

Lemma parse_run_in_object (toks : list token) (st st' : parse_state) :
  in_object st = true -> parse_run st toks = Some st' -> in_object st' = true.
Proof.
  revert st. induction toks as [|t toks IH]; simpl; intros st G H.
  - congruence.
  - destruct (parse_step st t) as [st1|] eqn:E; [|discriminate].
    apply (IH st1); [apply (parse_step_in_object st st1 t G E)|exact H].
Qed.

(** The lexer only adds tokens. *)
Lemma lex_start_grows (toks : list token) (c : N) (mode : lex_mode)
      (toks' : list token) :
  lex_start toks c = Some (mode, toks') -> exists new, toks' = new ++ toks.
Proof.
  unfold lex_start. intros H.
  repeat match type of H with
         | (if ?b then _ else _) = _ => destruct b
         | match ?d with Some _ => _ | None => _ end = _ => destruct d
         end;
    try discriminate; injection H as _ <-;
    first [exists []; reflexivity | eexists [_]; reflexivity].
Qed.

Lemma lex_step_grows (mode mode' : lex_mode) (toks toks' : list token) (c : N) :
  lex_step (mode, toks) c = Some (mode', toks') ->
  exists new, toks' = new ++ toks.
Proof.
  intros H. destruct mode as [|acc|acc|acc n cu|a|acc]; cbn [lex_step] in H.
  - apply (lex_start_grows toks c mode' toks' H).
  - repeat match type of H with
           | (if ?b then _ else _) = _ => destruct b
           end; try discriminate; injection H as _ <-;
      first [exists []; reflexivity | eexists [_]; reflexivity].
  - repeat match type of H with
           | (if ?b then _ else _) = _ => destruct b
           end; try discriminate; injection H as _ <-;
      exists []; reflexivity.
  - destruct (hex_digit c); [|discriminate].
    destruct (Nat.eqb n 3); injection H as _ <-; exists []; reflexivity.
  - destruct (num_step a c).
    + injection H as _ <-. exists []. reflexivity.
    + destruct (num_complete a); [|discriminate].
      destruct (lex_start_grows _ c mode' toks' H) as (new & ->).
      exists (new ++ [TNumber (num_value a)]). rewrite <- app_assoc. reflexivity.
  - destruct (is_lower c).
    + injection H as _ <-. exists []. reflexivity.
    + destruct (literal_token (rev acc)) as [t|]; [|discriminate].
      destruct (lex_start_grows _ c mode' toks' H) as (new & ->).
      exists (new ++ [t]). rewrite <- app_assoc. reflexivity.
Qed.

Lemma lex_run_grows (text : jsstring) (mode mode' : lex_mode)
      (toks toks' : list token) :
  lex_run (mode, toks) text = Some (mode', toks') ->
  exists new, toks' = new ++ toks.
Proof.
  revert mode toks. induction text as [|c text IH]; cbn [lex_run];
    intros mode toks H.
  - injection H as _ <-. exists []. reflexivity.
  - destruct (lex_step (mode, toks) c) as [[mode1 toks1]|] eqn:E; [|discriminate].
    destruct (lex_step_grows _ _ _ _ _ E) as (new1 & ->).
    destruct (IH _ _ H) as (new & ->).
    exists (new ++ new1). rewrite <- app_assoc. reflexivity.
Qed.

Lemma lex_open_brace (text : jsstring) (toks : list token) :
  lex (123%N :: text) = Some toks -> exists rest, toks = TLBrace :: rest.
Proof.
  unfold lex. cbn [lex_run]. 
  change (lex_step (LStart, []) 123%N) with (Some (LStart, [TLBrace])).
  destruct (lex_run (LStart, [TLBrace]) text) as [[mode toks']|] eqn:E;
    [|discriminate].
  destruct (lex_run_grows _ _ _ _ _ E) as (new & ->).
  unfold lex_finish. intros H.
  destruct mode as [|acc|acc|acc n cu|a|acc]; try discriminate.
  - injection H as <-. rewrite rev_app_distr. eexists. reflexivity.
  - destruct (num_complete a); [|discriminate]. injection H as <-.
    cbn [rev]. rewrite rev_app_distr. eexists. reflexivity.
  - destruct (literal_token (rev acc)); [|discriminate]. injection H as <-.
    cbn [rev]. rewrite rev_app_distr. eexists. reflexivity.
Qed.

Lemma parse_open_brace (text : jsstring) (v : value) :
  parse (123%N :: text) = Some v -> is_object v = true.
Proof.
  unfold parse. destruct (lex (123%N :: text)) as [toks|] eqn:L; [|discriminate].
  destruct (lex_open_brace text toks L) as (rest & ->).
  cbn [parse_run parse_step value_start].
  destruct (parse_run (SObjectOpen []) rest) as [st|] eqn:R; [|discriminate].
  pose proof (parse_run_in_object rest (SObjectOpen []) st eq_refl R) as G.
  destruct st as [| | | | |w [|f stack]]; try discriminate.
  intros H. injection H as <-. exact G.
Qed.

(** *** The handler, whatever the model does *)

Lemma value_eq_null (v : value) : v = JNull \/ v <> JNull.
Proof. destruct v; [left; reflexivity|right; discriminate ..]. Qed.

Definition failure (msg : jsstring) : Response :=
  {| status := 500;
     body := error_body (or_else msg (js "Failed to analyze image")) |}.

(** What the handler makes of the outcome of the request to the model. *)
Definition reply_answer (host : Host) (reply : completion (option jsstring))
  : Response :=
  match reply with
  | Throw e => failure (message e)
  | Normal None => failure (js "No response from OpenAI")
  | Normal (Some text) => answer host text
  end.

Lemma POST_accepted_any (host : Host) (request_body : jsstring)
      (apiKey image : value) :
  accepted request_body apiKey image ->
  POST host request_body
  = (reply_answer host (chat_completions_create host (chat_request apiKey image)),
     [chat_request apiKey image]).
Proof.
  intros Hreq.
  destruct (chat_completions_create host (chat_request apiKey image))
    as [[text|]|e] eqn:Hreply.
  - apply (POST_accepted host request_body apiKey image text Hreq Hreply).
  - destruct Hreq as (v & Hparse & Hkey & Tkey & Himage & Timage).
    unfold POST, try_catch, POST_try, request_json, JSON_parse, bind.
    rewrite Hparse. unfold ret at 1.
    destruct v as [ | | | | |members]; try discriminate.
    unfold destructure, ret at 1. rewrite Hkey, Himage, Tkey, Timage.
    cbn [negb or_undefined]. unfold create. rewrite Hreply. reflexivity.
  - destruct Hreq as (v & Hparse & Hkey & Tkey & Himage & Timage).
    unfold POST, try_catch, POST_try, request_json, JSON_parse, bind.
    rewrite Hparse. unfold ret at 1.
    destruct v as [ | | | | |members]; try discriminate.
    unfold destructure, ret at 1. rewrite Hkey, Himage, Tkey, Timage.
    cbn [negb or_undefined]. unfold create. rewrite Hreply. reflexivity.
Qed.

Lemma truthy_defined (v : option value) :
  truthy v = true -> exists w, v = Some w.
Proof. destruct v as [w|]; [eexists; reflexivity|discriminate]. Qed.

Lemma accepted_of_truthy (request_body : jsstring) (v : value) :
  parse request_body = Some v ->
  truthy (property v (js "apiKey")) = true ->
  truthy (property v (js "image")) = true ->
  exists apiKey image, accepted request_body apiKey image.
Proof.
  intros Hparse Tkey Timage.
  destruct (truthy_defined _ Tkey) as (k & Hk).
  destruct (truthy_defined _ Timage) as (i & Hi).
  exists k, i, v. rewrite Hk in Tkey. rewrite Hi in Timage. auto.
Qed.

Lemma answer_status (host : Host) (text : jsstring) :
  (status (answer host text) = 200 /\ is_object (body (answer host text)) = true)
  \/ (status (answer host text) = 500
      /\ exists msg, body (answer host text) = error_body msg).
Proof.
  unfold answer. destruct text as [|c text].
  { right. split; [reflexivity|eexists; reflexivity]. }
  destruct (String_match (c :: text) json_pattern) as [m|] eqn:Hm.
  - destruct (parse m) as [result|] eqn:Hp.
    + left. split; [reflexivity|]. cbn [body].
      destruct (proj1 (String_match_json_pattern_shape (c :: text)) m Hm)
        as (pre & mid & post & _ & Em & _).
      subst m. apply (parse_open_brace _ _ Hp).
    + right. split; [reflexivity|eexists; reflexivity].
  - right. split; [reflexivity|eexists; reflexivity].
Qed.

Lemma reply_answer_status (host : Host) (reply : completion (option jsstring)) :
  (status (reply_answer host reply) = 200
   /\ is_object (body (reply_answer host reply)) = true)
  \/ (status (reply_answer host reply) = 500
      /\ exists msg, body (reply_answer host reply) = error_body msg).
Proof.
  destruct reply as [[text|]|e]; cbn [reply_answer].
  - apply answer_status.
  - right. split; [reflexivity|eexists; reflexivity].
  - right. split; [reflexivity|eexists; reflexivity].
Qed.

Lemma POST_unparsed (host : Host) (request_body : jsstring) :
  parse request_body = None ->
  POST host request_body
  = (failure (syntax_error_message host request_body), []).
Proof.
  intros Hparse.
  unfold POST, try_catch, POST_try, request_json, JSON_parse, bind.
  rewrite Hparse. reflexivity.
Qed.

Lemma POST_null (host : Host) (request_body : jsstring) :
  parse request_body = Some JNull ->
  POST host request_body = (failure (destructure_error_message host), []).
Proof.
  intros Hparse.
  unfold POST, try_catch, POST_try, request_json, JSON_parse, bind.
  rewrite Hparse. reflexivity.
Qed.

(** X2. Every response is of one of three kinds: 200 with a JSON object,
    after exactly one request to the model, made with the key and the
    image of an accepted body; 400 with [{ error }], nothing having been
    sent to the model; or 500 with [{ error }], after at most that one
    request. *)
Theorem POST_response_kinds (host : Host) (request_body : jsstring) :
  let response := fst (POST host request_body) in
  let sent := snd (POST host request_body) in
  (status response = 200 /\ is_object (body response) = true
   /\ exists apiKey image,
        accepted request_body apiKey image
        /\ sent = [chat_request apiKey image])
  \/ (status response = 400 /\ sent = []
      /\ exists msg, body response = error_body msg)
  \/ (status response = 500
      /\ (exists msg, body response = error_body msg)
      /\ (sent = []
          \/ exists apiKey image,
               accepted request_body apiKey image
               /\ sent = [chat_request apiKey image])).
Proof.
  cbv zeta.
  destruct (parse request_body) as [v|] eqn:Hparse.
  2:{ rewrite (POST_unparsed host request_body Hparse). right. right.
      split; [reflexivity|]. split; [eexists; reflexivity|left; reflexivity]. }
  destruct (value_eq_null v) as [->|Hv].
  { rewrite (POST_null host request_body Hparse). right. right.
    split; [reflexivity|]. split; [eexists; reflexivity|left; reflexivity]. }
  destruct (truthy (property v (js "apiKey"))) eqn:Tkey.
  2:{ rewrite (POST_without_key host request_body v Hparse Hv Tkey).
      right. left. split; [reflexivity|]. split; [reflexivity|].
      eexists; reflexivity. }
  destruct (truthy (property v (js "image"))) eqn:Timage.
  2:{ rewrite (POST_without_image host request_body v Hparse Hv Tkey Timage).
      right. left. split; [reflexivity|]. split; [reflexivity|].
      eexists; reflexivity. }
  destruct (accepted_of_truthy request_body v Hparse Tkey Timage)
    as (apiKey & image & Hreq).
  rewrite (POST_accepted_any host request_body apiKey image Hreq). cbn [fst snd].
  destruct (reply_answer_status host
              (chat_completions_create host (chat_request apiKey image)))
    as [[H200 Hobj]|[H500 Hmsg]].
  - left. split; [exact H200|]. split; [exact Hobj|].
    exists apiKey, image. auto.
  - right. right. split; [exact H500|]. split; [exact Hmsg|].
    right. exists apiKey, image. auto.
Qed.

(** X3. When the request to the model throws (a wrong key, the network, a
    rate limit), the handler answers 500 with the message of that error,
    or with 'Failed to analyze image' when the error has no message. *)
Theorem POST_passes_upstream_error_on
        (host : Host) (request_body : jsstring) (apiKey image : value)
        (e : JsError) :
  accepted request_body apiKey image ->
  chat_completions_create host (chat_request apiKey image) = Throw e ->
  POST host request_body
  = ({| status := 500;
        body := error_body
                  (or_else (message e) (js "Failed to analyze image")) |},
     [chat_request apiKey image]).
Proof.
  intros Hreq Hreply.
  rewrite (POST_accepted_any host request_body apiKey image Hreq), Hreply.
  reflexivity.
Qed.

Lemma POST_passes_upstream_error_on_witness :
  POST (host_replying (Throw (new_Error (js "401 Incorrect API key provided"))))
       photo_request
  = ({| status := 500;
        body := error_body (js "401 Incorrect API key provided") |},
     [chat_request (JString (js "sk-test"))
                   (JString (js "data:image/png;base64,iVBORw0KGgo="))]).
Proof.
  apply (POST_passes_upstream_error_on
           (host_replying (Throw (new_Error (js "401 Incorrect API key provided"))))
           photo_request _ _ _ photo_request_accepted eq_refl).
Defined.

(** X4. When the model answers without content (undefined, null or the
    empty string), the handler answers 500 'No response from OpenAI'. *)
Theorem POST_reply_without_content
        (host : Host) (request_body : jsstring) (apiKey image : value) :
  accepted request_body apiKey image ->
  chat_completions_create host (chat_request apiKey image) = Normal None
  \/ chat_completions_create host (chat_request apiKey image) = Normal (Some []) ->
  POST host request_body
  = ({| status := 500; body := error_body (js "No response from OpenAI") |},
     [chat_request apiKey image]).
Proof.
  intros Hreq Hreply.
  rewrite (POST_accepted_any host request_body apiKey image Hreq).
  destruct Hreply as [-> | ->]; reflexivity.
Qed.

Lemma POST_reply_without_content_witness :
  POST (host_replying (Normal None)) photo_request
  = ({| status := 500; body := error_body (js "No response from OpenAI") |},
     [chat_request (JString (js "sk-test"))
                   (JString (js "data:image/png;base64,iVBORw0KGgo="))]).
Proof.
  apply (POST_reply_without_content (host_replying (Normal None)) photo_request
           _ _ photo_request_accepted (or_introl eq_refl)).
Defined.

(** X5. A body that is not JSON, or that is the JSON [null], is answered
    500 with the message of the error the engine throws (or with 'Failed
    to analyze image' when that message is empty), and nothing is sent to
    the model: such a request is not answered 400. *)
Theorem POST_unreadable_body (host : Host) (request_body : jsstring) :
  (parse request_body = None ->
   POST host request_body
   = ({| status := 500;
         body := error_body
                   (or_else (syntax_error_message host request_body)
                            (js "Failed to analyze image")) |}, []))
  /\ (parse request_body = Some JNull ->
      POST host request_body
      = ({| status := 500;
            body := error_body
                      (or_else (destructure_error_message host)
                               (js "Failed to analyze image")) |}, [])).
Proof.
  split; intros H.
  - apply (POST_unparsed host request_body H).
  - apply (POST_null host request_body H).
Qed.

Lemma POST_unreadable_body_witness :
  POST (host_replying (Normal None)) (js "null")
  = ({| status := 500;
        body := error_body (js "Cannot destructure property 'image' of null") |},
     [])
  /\ POST (host_replying (Normal None)) (js "{image")
     = ({| status := 500; body := error_body (js "Unexpected token in JSON") |},
        []).
Proof.
  split.
  - apply (proj2 (POST_unreadable_body (host_replying (Normal None)) (js "null"))).
    vm_compute. reflexivity.
  - apply (proj1 (POST_unreadable_body (host_replying (Normal None)) (js "{image"))).
    vm_compute. reflexivity.
Defined.

(** X6. For a body that is JSON other than null, the answer is 400 exactly
    when the key or the image is falsy: a field that is there but is the
    empty string, 0, false or null is refused like a missing one, the key
    first. *)
Theorem POST_bad_request_iff_falsy_field
        (host : Host) (request_body : jsstring) (v : value) :
  parse request_body = Some v -> v <> JNull ->
  (status (fst (POST host request_body)) = 400
   <-> truthy (property v (js "apiKey")) && truthy (property v (js "image"))
       = false)
  /\ (truthy (property v (js "apiKey")) = false ->
      POST host request_body
      = ({| status := 400;
            body := error_body (js "OpenAI API key is required") |}, []))
  /\ (truthy (property v (js "apiKey")) = true ->
      truthy (property v (js "image")) = false ->
      POST host request_body
      = ({| status := 400; body := error_body (js "Image is required") |}, [])).
Proof.
  intros Hparse Hv.
  split; [|split;
           [apply (POST_without_key host request_body v Hparse Hv)
           |apply (POST_without_image host request_body v Hparse Hv)]].
  destruct (truthy (property v (js "apiKey"))) eqn:Tkey.
  2:{ rewrite (POST_without_key host request_body v Hparse Hv Tkey).
      split; reflexivity. }
  destruct (truthy (property v (js "image"))) eqn:Timage.
  2:{ rewrite (POST_without_image host request_body v Hparse Hv Tkey Timage).
      split; reflexivity. }
  destruct (accepted_of_truthy request_body v Hparse Tkey Timage)
    as (apiKey & image & Hreq).
  rewrite (POST_accepted_any host request_body apiKey image Hreq). cbn [fst].
  split; [|discriminate].
  destruct (reply_answer_status host
              (chat_completions_create host (chat_request apiKey image)))
    as [[H _]|[H _]]; rewrite H; discriminate.
Qed.

Lemma POST_bad_request_iff_falsy_field_witness :
  POST (host_replying (Normal None))
       (jsq "{'image':'data:image/png;base64,AA==','apiKey':''}")
  = ({| status := 400;
        body := error_body (js "OpenAI API key is required") |}, []).
Proof.
  apply (proj1 (proj2 (POST_bad_request_iff_falsy_field
           (host_replying (Normal None))
           (jsq "{'image':'data:image/png;base64,AA==','apiKey':''}")
           (JObject [(js "image", JString (js "data:image/png;base64,AA=="));
                     (js "apiKey", JString [])])
           ltac:(vm_compute; reflexivity) ltac:(discriminate)))).
  vm_compute. reflexivity.
Defined.

End RouteMore.

(** ** What the page shows *)

Module PageView.

Import Page.

(** The conditions of the JSX of [Home], each on the state it renders. *)

(** [{error && ...}] *)
Definition showsError (s : State) : bool := negb (JsString.eqb (error s) []).

(** [{previewUrl && ...}]: the preview and the analyze button. *)
Definition showsPreview (s : State) : bool :=
  negb (JsString.eqb (previewUrl s) []).

(** [disabled={analyzing || !apiKey}] *)
Definition analyzeDisabled (s : State) : bool :=
  analyzing s || JsString.eqb (apiKey s) [].

(** [{currentAnalysis && ...}] *)
Definition showsResults (s : State) : bool :=
  match currentAnalysis s with
  | Some _ => true
  | None => false
  end.

(** [{mealHistory.length > 0 && ...}]: the progress and the history. *)
Definition showsProgress (s : State) : bool :=
  negb (Nat.eqb (List.length (mealHistory s)) 0).

(** [dailyTotal >= dailyGoal]: the congratulations, in place of the
    amount that remains. *)
Definition congratulates (s : State) : bool :=
  (dailyGoal s <=? dailyTotal s)%float.

(** [{dailyTotal < dailyGoal && ...}]: the suggestions. *)
Definition showsSuggestions (s : State) : bool :=
  (dailyTotal s <? dailyGoal s)%float.

End PageView.

(** ** More facts on binary64 numbers *)

Module FloatMore.

Import FloatFacts.

Lemma SF64sub_nonneg (a b : spec_float) :
  valid_binary a = true -> valid_binary b = true ->
  SFltb b a = true -> sf_nonneg (SF64sub a b) = true.
Proof.
  unfold SFltb.
  destruct a as [s|s| |s m e], b as [t|t| |t n f]; simpl; try discriminate;
    try (destruct s, t; simpl; congruence);
    try (destruct s; simpl; congruence);
    try (destruct t; simpl; congruence).
  unfold bounded. rewrite !andb_true_iff. intros [Ca _] [Cb _] L.
  apply sf_signed_nonneg.
  set (ez := Z.min e f).
  assert (Hpos : 0 < cond_Zopp s (Zpos (fst (shl_align m e ez)))
                     - cond_Zopp t (Zpos (fst (shl_align n f ez)))).
  { destruct s, t; simpl in L; cbn [cond_Zopp]; try discriminate; try lia.
    - (* both negative: the second is the larger in magnitude *)
      assert (A : Zpos (fst (shl_align m e (Z.min e f)))
                  < Zpos (fst (shl_align n f (Z.min e f)))).
      { apply aligned_lt; auto.
        rewrite (Z.compare_antisym f e).
        destruct (f ?= e); simpl in *; try discriminate; auto.
        change (Pos.compare_cont Eq m n) with (Pos.compare m n).
        rewrite (Pos.compare_antisym n m).
        change (Pos.compare n m) with (Pos.compare_cont Eq n m).
        destruct (Pos.compare_cont Eq n m); simpl in *; try discriminate; auto. }
      fold ez in A. lia.
    - assert (A : Zpos (fst (shl_align n f (Z.min f e)))
                  < Zpos (fst (shl_align m e (Z.min f e)))).
      { apply aligned_lt; auto.
        destruct (f ?= e); simpl in *; try discriminate; auto.
        destruct (Pos.compare_cont Eq n m); simpl in *; try discriminate; auto. }
      rewrite (Z.min_comm f e) in A. fold ez in A. lia. }
  unfold binary_normalize.
  destruct (cond_Zopp s _ - cond_Zopp t _) as [|p|p]; try lia.
  apply binary_round_signed.
Qed.

(** Neither NaN nor infinite. *)
Definition sf_finite (a : spec_float) : bool :=
  match a with
  | S754_zero _ | S754_finite _ _ _ => true
  | _ => false
  end.

Lemma is_finite_spec (x : float) : is_finite x = sf_finite (Prim2SF x).
Proof.
  unfold is_finite, is_infinity. rewrite is_nan_spec, eqb_spec, abs_spec.
  change (Prim2SF infinity) with (S754_infinity false).
  destruct (Prim2SF x) as [s|s| |s m e]; reflexivity.
Qed.

Lemma SF64sub_nonpos_le (a b : spec_float) :
  valid_binary a = true -> valid_binary b = true -> sf_finite a = true ->
  SFleb a b = true -> sf_nonpos (SF64sub a b) = true.
Proof.
  intros Va Vb Fa L.
  destruct (SFcompare a b) as [[ | | ]|] eqn:C;
    try (unfold SFleb in L; rewrite C in L; discriminate).
  - (* equal *)
    destruct a as [s|s| |s m e], b as [t|t| |t n f]; simpl in *;
      try discriminate; try (destruct s, t; reflexivity);
      try (destruct s; discriminate); try (destruct t; discriminate).
    assert (E : s = t /\ e = f /\ m = n).
    { destruct s, t; try discriminate;
        destruct (Z.compare_spec e f); try discriminate;
        change (Pos.compare_cont Eq m n) with (Pos.compare m n) in C;
        destruct (Pos.compare_spec m n); try discriminate; auto. }
    destruct E as (-> & -> & ->). rewrite Z.sub_diag. reflexivity.
  - apply SF64sub_nonpos; auto. unfold SFltb. rewrite C. reflexivity.
Qed.

End FloatMore.

(** ** More on the tracker page *)

Module PageMore.

Import JsNumber Page PageView FloatFacts FloatMore PageFacts.

#[local] Arguments commit : simpl never.

(** [commit] only writes the two derived fields. *)
Ltac commit_cases :=
  unfold commit, dailyGoal_effect, dailyTotal_effect;
  repeat match goal with
         | |- context [if ?c then _ else _] => destruct c
         end;
  reflexivity.

Lemma commit_error b a h : error (commit b a h) = error a.
Proof. commit_cases. Qed.
Lemma commit_analyzing b a h : analyzing (commit b a h) = analyzing a.
Proof. commit_cases. Qed.
Lemma commit_selectedFile b a h : selectedFile (commit b a h) = selectedFile a.
Proof. commit_cases. Qed.
Lemma commit_previewUrl b a h : previewUrl (commit b a h) = previewUrl a.
Proof. commit_cases. Qed.
Lemma commit_apiKey b a h : apiKey (commit b a h) = apiKey a.
Proof. commit_cases. Qed.
Lemma commit_mealHistory b a h : mealHistory (commit b a h) = mealHistory a.
Proof. commit_cases. Qed.
Lemma commit_currentAnalysis b a h :
  currentAnalysis (commit b a h) = currentAnalysis a.
Proof. commit_cases. Qed.
Lemma commit_weight b a h : weight (commit b a h) = weight a.
Proof. commit_cases. Qed.
Lemma commit_goal b a h : goal (commit b a h) = goal a.
Proof. commit_cases. Qed.
Lemma commit_dailyTotal_kept b a : dailyTotal (commit b a false) = dailyTotal a.
Proof. commit_cases. Qed.

Lemma commit_unchanged (s : State) : commit s s false = s.
Proof.
  unfold commit. rewrite Object_is_refl, Goal_eqb_refl. reflexivity.
Qed.

Ltac commit_fields :=
  rewrite ?commit_error, ?commit_analyzing, ?commit_selectedFile,
    ?commit_previewUrl, ?commit_apiKey, ?commit_mealHistory,
    ?commit_currentAnalysis, ?commit_weight, ?commit_goal,
    ?commit_dailyTotal_kept.

Lemma eqb_nil (a : jsstring) : JsString.eqb a [] = true <-> a = [].
Proof. destruct a; simpl; split; congruence. Qed.

(** The message of the guard of [analyzeImage]. *)
Definition guard_message : jsstring :=
  js "Please provide an OpenAI API key and select an image".

Lemma analyzeImage_ready (s : State) (file : File) :
  selectedFile s = Some file -> JsString.eqb (apiKey s) [] = false ->
  analyzeImage s = (commit s (setAnalyzing false (setError [] (setAnalyzing true s))) false, true).
Proof.
  intros Hf Hk. unfold analyzeImage, analyzeImage_try. rewrite Hf, Hk.
  reflexivity.
Qed.

(** Nothing is shown as an error, nothing is being analyzed, and a preview
    is the preview of a selected file. *)
Definition quiet (s : State) : Prop :=
  error s = [] /\ analyzing s = false
  /\ (selectedFile s = None -> previewUrl s = []).

Lemma handle_quiet (e : Event) (w : World) :
  quiet (page w) -> enabled e w = true -> quiet (page (handle e w)).
Proof.
  intros (He & Ha & Hp) En.
  destruct e as [v|x|g|file url| |outcome now| ]; cbn [handle page].
  - unfold onApiKeyChange, quiet. commit_fields. auto.
  - unfold onWeightChange, quiet. commit_fields. auto.
  - unfold onGoalChange, quiet. commit_fields. auto.
  - destruct file as [f|]; cbn [handleFileSelect]; [|unfold quiet; auto].
    unfold quiet. commit_fields. cbn. repeat split; auto; discriminate.
  - cbn [enabled] in En. rewrite !andb_true_iff, !negb_true_iff in En.
    destruct En as [[Hprev _] Hkey].
    destruct (selectedFile (page w)) as [file|] eqn:Hf.
    2:{ rewrite (Hp eq_refl) in Hprev. discriminate. }
    rewrite (analyzeImage_ready (page w) file Hf Hkey). cbn [page].
    unfold quiet. commit_fields. cbn. rewrite Hf. repeat split; auto;
      discriminate.
  - destruct outcome as [msg|err|fs tp]; cbn [onloadend fst];
      [unfold quiet; auto ..|].
    unfold quiet. commit_fields. cbn. auto.
  - unfold resetDay, quiet. commit_fields. cbn. auto.
Qed.

Lemma reachable_quiet (w : World) : reachable w -> quiet (page w).
Proof.
  induction 1 as [|w e Hw IH He].
  - repeat split.
  - apply handle_quiet; assumption.
Qed.

(** X7. In every reachable state [error] is the empty string, so the
    error banner never shows: a failure of the request is never stored, and
    the guard of [analyzeImage] cannot fire because the analyze button
    only exists with a preview and is disabled without a key. *)
Theorem error_is_never_shown (w : World) :
  reachable w ->
  error (page w) = [] /\ showsError (page w) = false
  /\ (enabled AnalyzeClick w = true -> snd (analyzeImage (page w)) = true).
Proof.
  intros Hw. destruct (reachable_quiet w Hw) as (He & Ha & Hp).
  split; [exact He|]. split; [unfold showsError; rewrite He; reflexivity|].
  intros En. cbn [enabled] in En.
  rewrite !andb_true_iff, !negb_true_iff in En. destruct En as [[Hprev _] Hkey].
  destruct (selectedFile (page w)) as [file|] eqn:Hf.
  - rewrite (analyzeImage_ready (page w) file Hf Hkey). reflexivity.
  - rewrite (Hp eq_refl) in Hprev. discriminate.
Qed.

Lemma error_is_never_shown_witness :
  exists w : World,
    run (ready_events ++ [AnalyzeClick; LoadEnd route_failure (js "12:00")]) start
    = Some w
    /\ error (page w) = [] /\ showsError (page w) = false
    /\ (enabled AnalyzeClick w = true -> snd (analyzeImage (page w)) = true).
Proof.
  eexists. split; [vm_compute; reflexivity|].
  apply error_is_never_shown.
  apply (run_reachable
           (ready_events ++ [AnalyzeClick; LoadEnd route_failure (js "12:00")])
           start); [constructor|vm_compute; reflexivity].
Defined.

(** X8. In every reachable state [analyzing] is false: [analyzeImage] sets
    it and resets it in its [finally] before the request is even sent. So
    the analyze button is not disabled while a request is under way: a
    click leaves it enabled and registers one more callback. *)
Theorem analyzing_is_never_set (w : World) :
  reachable w ->
  analyzing (page w) = false
  /\ (enabled AnalyzeClick w = true ->
      enabled AnalyzeClick (handle AnalyzeClick w) = true
      /\ pending (handle AnalyzeClick w) = S (pending w)).
Proof.
  intros Hw. destruct (reachable_quiet w Hw) as (He & Ha & Hp).
  split; [exact Ha|]. intros En.
  pose proof En as En'. cbn [enabled] in En'.
  rewrite !andb_true_iff, !negb_true_iff in En'.
  destruct En' as [[Hprev _] Hkey].
  destruct (selectedFile (page w)) as [file|] eqn:Hf.
  2:{ rewrite (Hp eq_refl) in Hprev. discriminate. }
  cbn [handle]. rewrite (analyzeImage_ready (page w) file Hf Hkey).
  split; [|reflexivity].
  cbn [enabled page]. commit_fields. cbn. rewrite Hprev, Hkey. reflexivity.
Qed.

Lemma analyzing_is_never_set_witness :
  exists w : World,
    run (ready_events ++ [AnalyzeClick]) start = Some w
    /\ analyzing (page w) = false /\ pending w = 1%nat
    /\ (enabled AnalyzeClick w = true ->
        enabled AnalyzeClick (handle AnalyzeClick w) = true
        /\ pending (handle AnalyzeClick w) = S (pending w)).
Proof.
  eexists. split; [vm_compute; reflexivity|].
  split; [reflexivity|]. split; [reflexivity|].
  apply analyzing_is_never_set.
  apply (run_reachable (ready_events ++ [AnalyzeClick]) start);
    [constructor|vm_compute; reflexivity].
Defined.

(** X9. Called without a selected file or with an empty key,
    [analyzeImage] stores its own message in [error], registers no
    callback, so sends no request, and changes nothing else. *)
Theorem analyzeImage_guard (s : State) :
  selectedFile s = None \/ apiKey s = [] ->
  snd (analyzeImage s) = false
  /\ fst (analyzeImage s) = setError guard_message s.
Proof.
  intros H. unfold analyzeImage.
  destruct (selectedFile s) as [file|] eqn:Hf.
  - destruct H as [H|H]; [discriminate|]. rewrite H. cbn [JsString.eqb fst snd].
    split; [reflexivity|].
    unfold commit. cbn. rewrite Object_is_refl, Goal_eqb_refl. reflexivity.
  - cbn [fst snd]. split; [reflexivity|].
    unfold commit. cbn. rewrite Object_is_refl, Goal_eqb_refl. reflexivity.
Qed.

Lemma analyzeImage_guard_witness :
  snd (analyzeImage initial) = false
  /\ fst (analyzeImage initial) = setError guard_message initial.
Proof. apply analyzeImage_guard. left. reflexivity. Defined.

Lemma Math_max_nonneg (x : float) :
  sf_nonneg (Prim2SF x) = true ->
  (Math_max x 0 =? x)%float = true /\ Spec.le 0 (Math_max x 0).
Proof.
  intros H.
  assert (N : is_nan x = false).
  { rewrite is_nan_spec. destruct (Prim2SF x); simpl in *; congruence. }
  assert (Exx : (x =? x)%float = true).
  { unfold is_nan in N. apply negb_false_iff in N. exact N. }
  assert (Gx : (0 <=? x)%float = true) by (rewrite leb_zero_spec; exact H).
  split; [|apply Math_max_ge; [exact N|reflexivity]].
  unfold Math_max. rewrite N. cbn [orb]. change (is_nan 0) with false. cbv iota.
  assert (L : (x <? 0)%float = false).
  { rewrite ltb_spec. change (Prim2SF 0%float) with (S754_zero false).
    destruct (Prim2SF x) as [s|s| |s m e]; simpl in *; try reflexivity;
      try discriminate; destruct s; try discriminate; reflexivity. }
  rewrite L. destruct (0 <? x)%float eqn:G; [exact Exx|].
  destruct (get_sign x); [|exact Exx].
  (* neither below nor above 0: a zero *)
  rewrite eqb_spec. rewrite ltb_spec in G.
  change (Prim2SF 0%float) with (S754_zero false) in *.
  destruct (Prim2SF x) as [s|s| |s m e]; simpl in *; try reflexivity;
    try discriminate; destruct s; discriminate.
Qed.

Lemma analyzeImage_history (s : State) :
  mealHistory (fst (analyzeImage s)) = mealHistory s
  /\ currentAnalysis (fst (analyzeImage s)) = currentAnalysis s.
Proof.
  unfold analyzeImage, analyzeImage_try.
  destruct (selectedFile s); [destruct (JsString.eqb (apiKey s) [])|];
    cbn [fst]; commit_fields; split; reflexivity.
Qed.

(** X10. No event removes or reorders single meals: an event leaves the
    history as it is, except a reset, which empties it, and a successful
    completion, which adds its meal at the end. *)
Theorem history_changes (e : Event) (w : World) :
  mealHistory (page (handle e w)) = mealHistory (page w)
  \/ (e = ResetClick /\ mealHistory (page (handle e w)) = [])
  \/ (exists fs tp now,
        e = LoadEnd (ResponseOk fs tp) now
        /\ mealHistory (page (handle e w))
           = mealHistory (page w)
             ++ [{| foods := fs; totalProtein := tp; timestamp := now |}]).
Proof.
  destruct e as [v|x|g|file url| |outcome now| ]; cbn [handle page].
  - left. unfold onApiKeyChange. commit_fields. reflexivity.
  - left. unfold onWeightChange. commit_fields. reflexivity.
  - left. unfold onGoalChange. commit_fields. reflexivity.
  - left. destruct file; cbn [handleFileSelect]; commit_fields; reflexivity.
  - left. pose proof (analyzeImage_history (page w)) as [H _].
    destruct (analyzeImage (page w)) as [s' registered]. exact H.
  - destruct outcome as [msg|err|fs tp]; [left; reflexivity ..|].
    right. right. exists fs, tp, now. split; [reflexivity|].
    cbn [onloadend fst]. commit_fields. reflexivity.
  - right. left. split; [reflexivity|]. unfold resetDay. commit_fields.
    reflexivity.
Qed.

(** The analysis on display is the last meal of the history. *)
Definition shows_last_meal (s : State) : Prop :=
  forall m : MealAnalysis,
    currentAnalysis s = Some m -> exists earlier, mealHistory s = earlier ++ [m].

Lemma handle_shows_last_meal (e : Event) (w : World) :
  shows_last_meal (page w) -> shows_last_meal (page (handle e w)).
Proof.
  intros H. destruct e as [v|x|g|file url| |outcome now| ]; cbn [handle page].
  - unfold onApiKeyChange, shows_last_meal. commit_fields. exact H.
  - unfold onWeightChange, shows_last_meal. commit_fields. exact H.
  - unfold onGoalChange, shows_last_meal. commit_fields. exact H.
  - destruct file; cbn [handleFileSelect]; [|exact H].
    unfold shows_last_meal. commit_fields. cbn. discriminate.
  - pose proof (analyzeImage_history (page w)) as [Hh Hc].
    destruct (analyzeImage (page w)) as [s' registered]. cbn [fst page] in *.
    unfold shows_last_meal. rewrite Hh, Hc. exact H.
  - destruct outcome as [msg|err|fs tp]; cbn [onloadend fst]; [exact H ..|].
    unfold shows_last_meal. commit_fields. cbn. intros m Hm.
    injection Hm as <-. eexists. reflexivity.
  - unfold resetDay, shows_last_meal. commit_fields. cbn. discriminate.
Qed.

(** X12. In every reachable state the analysis on display, when there is
    one, is the most recent meal of the history: a completion shows the
    meal it appends, and choosing a file or resetting the day clears the
    display. *)
Theorem currentAnalysis_is_last_meal (w : World) (m : MealAnalysis) :
  reachable w -> currentAnalysis (page w) = Some m ->
  exists earlier, mealHistory (page w) = earlier ++ [m].
Proof.
  intros Hw. revert m. change (shows_last_meal (page w)).
  induction Hw as [|w e Hw IH He].
  - intros m Hm. discriminate.
  - apply handle_shows_last_meal, IH.
Qed.

Lemma currentAnalysis_is_last_meal_witness :
  exists (w : World) (m : MealAnalysis),
    run three_meals_events start = Some w
    /\ currentAnalysis (page w) = Some m /\ timestamp m = js "20:00"
    /\ exists earlier, mealHistory (page w) = earlier ++ [m].
Proof.
  eexists. eexists. split; [vm_compute; reflexivity|].
  split; [reflexivity|]. split; [reflexivity|].
  apply currentAnalysis_is_last_meal; [|reflexivity].
  apply (run_reachable three_meals_events start);
    [constructor|vm_compute; reflexivity].
Defined.

Lemma onloadend_ok_fields (s : State) (fs : list FoodItem) (tp : float)
      (now : jsstring) :
  let meal := {| foods := fs; totalProtein := tp; timestamp := now |} in
  let s' := fst (onloadend (ResponseOk fs tp) now s) in
  mealHistory s' = mealHistory s ++ [meal]
  /\ currentAnalysis s' = Some meal
  /\ error s' = error s /\ selectedFile s' = selectedFile s
  /\ weight s' = weight s /\ goal s' = goal s /\ dailyGoal s' = dailyGoal s.
Proof.
  cbv zeta. cbn [onloadend fst]. commit_fields. cbn.
  repeat split. unfold commit. cbn. rewrite Object_is_refl, Goal_eqb_refl.
  reflexivity.
Qed.

(** X11. Two analyses that succeed one after the other are appended to
    the history in the order in which they complete, after the meals that
    were there; the analysis on display is the later one; the error, the
    selected file and the profile are not touched. *)
Theorem completions_append_in_order
        (s : State) (fs1 fs2 : list FoodItem) (tp1 tp2 : float)
        (now1 now2 : jsstring) :
  let meal1 := {| foods := fs1; totalProtein := tp1; timestamp := now1 |} in
  let meal2 := {| foods := fs2; totalProtein := tp2; timestamp := now2 |} in
  let s1 := fst (onloadend (ResponseOk fs1 tp1) now1 s) in
  let s2 := fst (onloadend (ResponseOk fs2 tp2) now2 s1) in
  mealHistory s2 = mealHistory s ++ [meal1; meal2]
  /\ currentAnalysis s1 = Some meal1
  /\ currentAnalysis s2 = Some meal2
  /\ error s2 = error s /\ selectedFile s2 = selectedFile s
  /\ weight s2 = weight s /\ goal s2 = goal s /\ dailyGoal s2 = dailyGoal s.
Proof.
  cbv zeta.
  destruct (onloadend_ok_fields s fs1 tp1 now1) as (H1 & C1 & E1 & F1 & W1 & G1 & D1).
  destruct (onloadend_ok_fields (fst (onloadend (ResponseOk fs1 tp1) now1 s))
                                fs2 tp2 now2)
    as (H2 & C2 & E2 & F2 & W2 & G2 & D2).
  rewrite H2, H1, <- app_assoc, C1, C2, E2, E1, F2, F1, W2, W1, G2, G1, D2, D1.
  repeat split; reflexivity.
Qed.

(** X13. [resetDay] done twice is [resetDay] done once; and it cancels
    nothing: an analysis that completes after the reset is appended to the
    emptied history, which then holds that meal alone, with its protein as
    the daily total. *)
Theorem resetDay_again_and_late_completion
        (s : State) (fs : list FoodItem) (tp : float) (now : jsstring) :
  resetDay (resetDay s) = resetDay s
  /\ (let late := fst (onloadend (ResponseOk fs tp) now (resetDay s)) in
      mealHistory late
      = [{| foods := fs; totalProtein := tp; timestamp := now |}]
      /\ dailyTotal late = (0 + tp)%float).
Proof.
  split.
  - unfold resetDay, commit. cbn.
    rewrite !Object_is_refl, !Goal_eqb_refl. cbn.
    rewrite ?Object_is_refl, ?Goal_eqb_refl. reflexivity.
  - cbv zeta. cbn [onloadend fst]. commit_fields. split.
    + unfold resetDay. commit_fields. reflexivity.
    + unfold commit at 1. cbn.
      destruct (_ && _); cbn; unfold resetDay; commit_fields; reflexivity.
Qed.

(** X14. The congratulations and the suggestions are never shown
    together, and one of them is shown unless the total or the goal is
    NaN. When the page congratulates and the goal is finite, [remaining]
    is 0; when it suggests foods, [remaining] is the difference between
    the goal and the total (as numbers compare) and is not negative. *)
Theorem feedback_is_consistent (s : State) :
  congratulates s && showsSuggestions s = false
  /\ (is_nan (dailyTotal s) = false -> is_nan (dailyGoal s) = false ->
      congratulates s || showsSuggestions s = true)
  /\ (congratulates s = true -> is_finite (dailyGoal s) = true ->
      remaining s = 0%float)
  /\ (showsSuggestions s = true ->
      (remaining s =? dailyGoal s - dailyTotal s)%float = true
      /\ Spec.le 0 (remaining s)).
Proof.
  unfold congratulates, showsSuggestions, remaining.
  set (g := dailyGoal s). set (t := dailyTotal s).
  split; [|split; [|split]].
  - rewrite leb_spec, ltb_spec. unfold SFleb, SFltb.
    rewrite (SFcompare_antisym (Prim2SF g) (Prim2SF t)).
    destruct (SFcompare (Prim2SF g) (Prim2SF t)) as [[ | | ]|]; reflexivity.
  - intros Nt Ng. destruct (t <? g)%float eqn:L.
    + apply orb_true_r.
    + rewrite (leb_total t g Nt Ng L). reflexivity.
  - intros L F. apply Math_max_nonpos. rewrite sub_spec.
    apply SF64sub_nonpos_le; try apply Prim2SF_valid.
    + rewrite <- is_finite_spec. exact F.
    + rewrite <- leb_spec. exact L.
  - intros L.
    assert (Hd : sf_nonneg (Prim2SF (g - t)%float) = true).
    { rewrite sub_spec. apply SF64sub_nonneg; try apply Prim2SF_valid.
      rewrite <- ltb_spec. exact L. }
    apply Math_max_nonneg. exact Hd.
Qed.

Lemma feedback_is_consistent_witness :
  exists w : World,
    run one_meal_events start = Some w
    /\ showsSuggestions (page w) = true
    /\ remaining (page w) = 63%float
    /\ (remaining (page w) =? dailyGoal (page w) - dailyTotal (page w))%float
       = true
    /\ Spec.le 0 (remaining (page w)).
Proof.
  eexists. split; [vm_compute; reflexivity|].
  split; [vm_compute; reflexivity|]. split; [vm_compute; reflexivity|].
  apply (proj2 (proj2 (proj2 (feedback_is_consistent _)))).
  vm_compute. reflexivity.
Defined.

(** The check of one weight: the goal to lose is below the goal to
    maintain, which is below the goal to gain, all between 36 and 400. *)
Definition ordered_at (kg : Z) : bool :=
  let target g := Math_round (of_Z kg * Page.multiplier g)%float in
  (target lose <? target maintain)%float
  && (target maintain <? target gain)%float
  && (36 <=? target lose)%float && (target gain <=? 400)%float.

Definition ordered_range : bool :=
  forallb (fun n => ordered_at (Z.of_nat n)) (seq 30 171).

Lemma ordered_range_true : ordered_range = true.
Proof. vm_compute. reflexivity. Qed.

Lemma onGoalChange_profile (g : Goal) (s : State) :
  weight (onGoalChange g s) = weight s /\ goal (onGoalChange g s) = g.
Proof. unfold onGoalChange. commit_fields. split; reflexivity. Qed.

(** X15. For a weight that is a whole number of kilograms from 30 to 200,
    selecting the goal to lose, to maintain or to gain gives daily goals
    in that strict order, none below 36 g or above 400 g. *)
Theorem dailyGoal_grows_with_goal (w : World) (kg : Z) :
  reachable w -> 30 <= kg <= 200 -> weight (page w) = of_Z kg ->
  let target g := dailyGoal (page (handle (GoalSelect g) w)) in
  Spec.lt (target lose) (target maintain)
  /\ Spec.lt (target maintain) (target gain)
  /\ Spec.le 36 (target lose) /\ Spec.le (target gain) 400.
Proof.
  intros Hw Hkg Hweight target.
  assert (T : forall g, target g = Math_round (of_Z kg * Page.multiplier g)%float).
  { intros g. unfold target.
    assert (Hr : reachable (handle (GoalSelect g) w))
      by (apply reachable_step; [exact Hw|reflexivity]).
    destruct (reachable_derived _ Hr) as [Hg _]. rewrite Hg. cbn [handle page].
    destruct (onGoalChange_profile g (page w)) as [-> ->].
    rewrite Hweight. reflexivity. }
  pose proof ordered_range_true as R. unfold ordered_range in R.
  rewrite forallb_forall in R.
  assert (O : ordered_at kg = true).
  { rewrite <- (Z2Nat.id kg) by lia. apply R. apply in_seq. lia. }
  unfold ordered_at in O. cbv zeta in O. rewrite !andb_true_iff in O.
  destruct O as [[[O1 O2] O3] O4].
  unfold Spec.lt, Spec.le. rewrite !T. auto.
Qed.

Lemma dailyGoal_grows_with_goal_witness :
  let target g := dailyGoal (page (handle (GoalSelect g) start)) in
  Spec.lt (target lose) (target maintain)
  /\ Spec.lt (target maintain) (target gain)
  /\ Spec.le 36 (target lose) /\ Spec.le (target gain) 400.
Proof.
  apply (dailyGoal_grows_with_goal start 70).
  - constructor.
  - lia.
  - vm_compute. reflexivity.
Defined.

End PageMore.
